(** * LLM-Crypto-Trade: a verification development

    The repository ships the React/TypeScript dashboard of the trading
    system: the price formatter ([utils/format]), the ticker WebSocket hook
    with its exponential back-off, and the typed API clients for strategies,
    signals and backtests; around them the HTTP client's interceptors, the
    persisted stores, the route guard, the sidebar's symbol list and the
    components that colour numbers.  These are embedded here from the
    sources.

    The analysis engine itself (strategies, signal aggregator, signal store,
    backtest engine) is Python code that the dashboard only talks to; where a
    property concerns it, the engine is modelled from the specification and
    every such definition says so. *)

From Stdlib Require Import ZArith Lia List Bool String Ascii.
From Stdlib Require Import QArith Qabs Lqa Sorted.
From Stdlib Require Import Floats.SpecFloat DecimalString.
Import ListNotations.

Local Open Scope Z_scope.

(* ================================================================= *)
(** * Part I: the embedding *)

(* ================================================================= *)
(** ** JavaScript numbers

    A JS [number] is an IEEE-754 binary64 value.  [spec_float] with
    [prec = 53] and [emax = 1024] is exactly that format (without NaN
    payloads, which JS cannot observe either). *)

Module JsNumber.

Definition prec : Z := 53.
Definition emax : Z := 1024.

Definition number : Type := spec_float.

(** A [spec_float] is a binary64 value when its mantissa is canonical. *)
Definition wf (x : number) : Prop := valid_binary prec emax x = true.

Definition of_Z (k : Z) : number := binary_normalize prec emax k 0 false.

Definition zero : number := S754_zero false.
Definition one : number := of_Z 1.
Definition two : number := of_Z 2.
Definition twelve : number := of_Z 12.
Definition NaN : number := S754_nan.
Definition Infinity : number := S754_infinity false.

(** [isNaN(x)] *)
Definition isNaN (x : number) : bool :=
  match x with S754_nan => true | _ => false end.

(** [x === y] on numbers: IEEE equality, so [-0 === 0] and [NaN !== NaN]. *)
Definition strict_eq (x y : number) : bool := SFeqb x y.

(** [x >= y] and [x < y] *)
Definition geb (x y : number) : bool := SFleb y x.
Definition ltb (x y : number) : bool := SFltb x y.

(** [Math.abs(x)] *)
Definition Math_abs (x : number) : number := SFabs x.

(** Unary minus. *)
Definition neg (x : number) : number := SFopp x.

(** [x + y] *)
Definition add (x y : number) : number := SFadd prec emax x y.

(** The integer floor of the finite value [(-1)^s * m * 2^e]. *)
Definition floorZ_finite (s : bool) (m : positive) (e : Z) : Z :=
  let v := cond_Zopp s (Zpos m) in
  if 0 <=? e then v * 2 ^ e else v / 2 ^ (- e).

Definition floorZ (x : number) : Z :=
  match x with
  | S754_finite s m e => floorZ_finite s m e
  | _ => 0
  end.

(** [Math.floor(x)]: zeros, infinities and NaN are returned unchanged;
    values with a non-negative exponent are integers already; a positive
    fraction below one floors to [+0]. *)
Definition Math_floor (x : number) : number :=
  match x with
  | S754_finite s m e => if 0 <=? e then x else of_Z (floorZ_finite s m e)
  | _ => x
  end.

(** [Math.min(x, y)]: NaN if either is NaN, and [-0] is below [+0]. *)
Definition Math_min (x y : number) : number :=
  match SFcompare x y with
  | None => S754_nan
  | Some Lt => x
  | Some Gt => y
  | Some Eq => match x with S754_zero true => x | _ => y end
  end.

(** Structural equality test on [spec_float], used to check finitely many
    float computations by evaluation. *)
Definition sf_eqb (x y : number) : bool :=
  match x, y with
  | S754_zero a, S754_zero b => Bool.eqb a b
  | S754_infinity a, S754_infinity b => Bool.eqb a b
  | S754_nan, S754_nan => true
  | S754_finite a m e, S754_finite b n f =>
      Bool.eqb a b && Pos.eqb m n && Z.eqb e f
  | _, _ => false
  end.

End JsNumber.

(* ================================================================= *)
(** ** Price formatting ([utils/format]) *)

Module Format.
Import JsNumber.

(** The option bag [{ minimumFractionDigits, maximumFractionDigits }] handed
    to [Number.prototype.toLocaleString]. *)
Record NumberFormatOptions : Type := {
  minimumFractionDigits : number;
  maximumFractionDigits : number
}.

(** The argument type [number | string] of the formatters. *)
Inductive value : Type :=
| VNumber (n : number)
| VString (s : string).

Section WithHost.

(** [Math.log10] is implementation-approximated in ECMAScript; the
    formatter is verified for any implementation of it. *)
Variable Math_log10 : number -> number.

(** [parseFloat] and [toLocaleString('en-US', options)] of the host. *)
Variable parseFloat : string -> number.
Variable toLocaleString_enUS : number -> NumberFormatOptions -> string.

(** [getSmartPrecision(num)] *)
Definition getSmartPrecision (num : number) : number :=
  if strict_eq num zero || isNaN num then two
  else
    let abs := Math_abs num in
    if geb abs one then two
    else
      let leadingZeros := Math_floor (neg (Math_log10 abs)) in
      Math_min (add leadingZeros two) twelve.

(** [typeof value === 'string' ? parseFloat(value) : value] *)
Definition to_number (v : value) : number :=
  match v with
  | VString s => parseFloat s
  | VNumber n => n
  end.

(** [formatPrice(value, precision?)]; an omitted [precision] is [None]. *)
Definition formatPrice (v : value) (precision : option number) : string :=
  let num := to_number v in
  if isNaN num then "0.00"%string
  else
    let p := match precision with
             | Some p => p
             | None => getSmartPrecision num
             end in
    toLocaleString_enUS num
      {| minimumFractionDigits := p; maximumFractionDigits := p |}.

End WithHost.

Section WithShow.

(** The conversion of an integer to text inside a template literal. *)
Variable show : Z -> string.



End WithShow.

(** What the verification asks of [Math.log10] at a point [x] with
    [0 < x < 1]: a binary64 value between [-324] and [0].  The smallest
    positive binary64 value is [2^-1074 > 10^-324], so every faithful
    [log10] satisfies it. *)
Definition log10_in_range (Math_log10 : number -> number) (x : number) : Prop :=
  wf (Math_log10 x) /\
  SFleb (of_Z (-324)) (Math_log10 x) = true /\
  SFleb (Math_log10 x) zero = true.

(** The number of characters after the decimal point of a formatted
    number. *)
Fixpoint fraction_digits (s : string) : option nat :=
  match s with
  | EmptyString => None
  | String c rest =>
      if Ascii.eqb c "."%char then Some (String.length rest)
      else fraction_digits rest
  end.

(** Finite numbers: everything but NaN and the infinities. *)
Definition is_finite (x : number) : bool :=
  match x with
  | S754_zero _ | S754_finite _ _ _ => true
  | _ => false
  end.

(** What ECMA-402 promises of [toLocaleString] for a finite number when
    [minimumFractionDigits] and [maximumFractionDigits] are the same integer
    [k] between 1 and 100: exactly [k] digits after the decimal point. *)
Definition honours_fraction_digits
    (toLocaleString_enUS : number -> NumberFormatOptions -> string) : Prop :=
  forall (x : number) (k : Z),
    is_finite x = true -> 1 <= k <= 100 ->
    fraction_digits
      (toLocaleString_enUS x
         {| minimumFractionDigits := of_Z k; maximumFractionDigits := of_Z k |})
    = Some (Z.to_nat k).

(** One point of a [Math.log10]: [log10(0.00000789)], correctly rounded, as
    in the source's comment; used to exercise the formatter. *)
Definition sample_price : number :=
  S754_finite false 4657433943730188 (-69).
Definition sample_log10 : number :=
  S754_finite true 5745380526711597 (-50).
Definition log10_at_sample (x : number) : number :=
  if sf_eqb x sample_price then sample_log10 else NaN.

(** A stand-in host formatter that honours the fraction digits (it prints
    zeros only); used to exercise [formatPrice]. *)
Fixpoint zeros (n : nat) : string :=
  match n with
  | O => EmptyString
  | S n' => String "0" (zeros n')
  end.

Definition zeros_toLocaleString (x : number) (options : NumberFormatOptions)
    : string :=
  String "0" (String "." (zeros (Z.to_nat (floorZ (maximumFractionDigits options))))).

(** Used to check that [floorZ (of_Z k) = k] on the legal fraction digits. *)
Definition digits_check (k : Z) : bool := floorZ (of_Z k) =? k.

(** Used to check the small table of float sums by evaluation. *)
Definition small_check (k : Z) : bool :=
  sf_eqb (Math_min (add (of_Z k) two) twelve) (of_Z (Z.min (k + 2) 12)).

(** *** [formatPercent] and [formatVolume] *)

(** [x / y] *)
Definition div (x y : number) : number := SFdiv prec emax x y.

(** The literals [1e3], [1e6] and [1e9]. *)
Definition thousand : number := of_Z 1000.
Definition million : number := of_Z 1000000.
Definition billion : number := of_Z 1000000000.

Section WithFixed.

Local Open Scope string_scope.

(** [parseFloat] and [Number.prototype.toFixed] of the host. *)
Variable parseFloat : string -> number.
Variable toFixed : number -> number -> string.

(** [num > 0 ? '+' : ''] *)
Definition sign (num : number) : string :=
  if ltb zero num then "+" else "".

(** [formatPercent(value, precision = 2)]; an omitted [precision] is
    [None]. *)
Definition formatPercent (v : value) (precision : option number) : string :=
  let num := to_number parseFloat v in
  if isNaN num then "0.00%"
  else
    let p := match precision with
             | Some p => p
             | None => two
             end in
    sign num ++ toFixed num p ++ "%".

(** [formatVolume(value)] *)
Definition formatVolume (v : value) : string :=
  let num := to_number parseFloat v in
  if isNaN num then "0"
  else if geb num billion then toFixed (div num billion) two ++ "B"
  else if geb num million then toFixed (div num million) two ++ "M"
  else if geb num thousand then toFixed (div num thousand) two ++ "K"
  else toFixed num two.

End WithFixed.

End Format.

(* ================================================================= *)
(** ** The ticker WebSocket hook ([hooks/useTickerWebSocket], [stores/websocket]) *)

Module TickerWebSocket.
Import JsNumber.

(** What the browser delivers to the handlers the hook installs on a socket.
    A message is the parsed payload: its [symbol] and, when present and not
    null, its [price]. *)
Inductive event : Type :=
| Open
| Message (symbol : string) (price : option number)
| Error
| Close.

(** The state the handlers read and write: the [connected] flag and the
    [prices] of the zustand store, the retry counter [retriesRef.current],
    and the delays handed to [setTimeout(connect, delay)], oldest first.
    The [latency] the store also keeps is a wall-clock measurement and is
    left out. *)
Record hook_state : Type := {
  connected : bool;
  prices : list (string * number);
  retries : nat;
  reconnects : list Z
}.

(** The state on mount: [connected: false], [prices: {}], [useRef(0)]. *)
Definition initial : hook_state :=
  {| connected := false; prices := []; retries := 0%nat; reconnects := [] |}.

(** [Math.min(1000 * 2 ** retriesRef.current, 30_000)].  On binary64 the
    product overflows to [Infinity] for huge counters and the minimum is
    still [30000]; on [Z] it is merely large. *)
Definition reconnect_delay (retries : nat) : Z :=
  Z.min (1000 * 2 ^ Z.of_nat retries) 30000.

(** [{ ...state.prices, [symbol]: price }] *)
Definition updatePrice (symbol : string) (price : number)
    (ps : list (string * number)) : list (string * number) :=
  (symbol, price) ::
  filter (fun kv => negb (String.eqb (fst kv) symbol)) ps.

(** [state.prices[symbol]] *)
Fixpoint price_of (symbol : string) (ps : list (string * number))
    : option number :=
  match ps with
  | [] => None
  | (k, v) :: rest => if String.eqb k symbol then Some v else price_of symbol rest
  end.

(** The four handlers [ws.onopen], [ws.onmessage], [ws.onerror] and
    [ws.onclose]. *)
Definition handle (s : hook_state) (ev : event) : hook_state :=
  match ev with
  | Open =>
      {| connected := true; prices := prices s;
         retries := 0%nat; reconnects := reconnects s |}
  | Message symbol price =>
      match price with
      | Some p =>
          if String.eqb symbol EmptyString then s
          else {| connected := connected s;
                  prices := updatePrice symbol p (prices s);
                  retries := retries s; reconnects := reconnects s |}
      | None => s
      end
  | Error => s  (* [ws.close()]: the socket answers with a [Close] later *)
  | Close =>
      let delay := reconnect_delay (retries s) in
      {| connected := false; prices := prices s;
         retries := S (retries s);
         reconnects := reconnects s ++ [delay] |}
  end.

(** The handlers run one event at a time. *)
Definition run (s : hook_state) (trace : list event) : hook_state :=
  fold_left handle trace s.

Definition is_open (ev : event) : bool :=
  match ev with Open => true | _ => false end.

Definition is_close (ev : event) : bool :=
  match ev with Close => true | _ => false end.

(** The number of [Close] events in a trace. *)
Definition closes (trace : list event) : nat :=
  List.length (filter is_close trace).

(** An event that is neither an open nor a close. *)
Definition keeps_link (ev : event) : bool := negb (is_open ev || is_close ev).

(** A message that sets the price of [symbol]. *)
Definition prices_symbol (symbol : string) (ev : event) : bool :=
  match ev with
  | Message sym (Some _) => String.eqb sym symbol
  | _ => false
  end.

End TickerWebSocket.

(* ================================================================= *)
(** ** The client-side stores ([stores/favorites], [stores/auth]) *)

Module Stores.

Local Open Scope string_scope.

(** *** [useFavoriteStore] *)

(** [symbols.includes(symbol)] *)
Definition includes (symbols : list string) (symbol : string) : bool :=
  existsb (String.eqb symbol) symbols.

(** The initial [symbols]. *)
Definition initial_favorites : list string := ["BTC/USDT"; "ETH/USDT"].

(** [addFavorite(symbol)] *)
Definition addFavorite (symbol : string) (symbols : list string) : list string :=
  if includes symbols symbol then symbols else symbols ++ [symbol].

(** [removeFavorite(symbol)] *)
Definition removeFavorite (symbol : string) (symbols : list string)
    : list string :=
  filter (fun s => negb (String.eqb s symbol)) symbols.

(** [isFavorite(symbol)] *)
Definition isFavorite (symbol : string) (symbols : list string) : bool :=
  includes symbols symbol.

Inductive favorite_action : Type :=
| AddFavorite (symbol : string)
| RemoveFavorite (symbol : string).

Definition favorite_step (symbols : list string) (a : favorite_action)
    : list string :=
  match a with
  | AddFavorite symbol => addFavorite symbol symbols
  | RemoveFavorite symbol => removeFavorite symbol symbols
  end.

(** *** [useAuthStore] *)

Record AuthState : Type := {
  token : option string;
  username : option string;
  mustChangePassword : bool;
  isAuthenticated : bool
}.

Definition initial_auth : AuthState :=
  {| token := None; username := None;
     mustChangePassword := false; isAuthenticated := false |}.

(** [login(token, username, mustChangePassword)] *)
Definition login (t u : string) (must : bool) (s : AuthState) : AuthState :=
  {| token := Some t; username := Some u;
     mustChangePassword := must; isAuthenticated := true |}.

(** [logout()] *)
Definition logout (s : AuthState) : AuthState :=
  {| token := None; username := None;
     mustChangePassword := false; isAuthenticated := false |}.

(** [setMustChange(value)] *)
Definition setMustChange (value : bool) (s : AuthState) : AuthState :=
  {| token := token s; username := username s;
     mustChangePassword := value; isAuthenticated := isAuthenticated s |}.

Inductive auth_action : Type :=
| Login (t u : string) (must : bool)
| Logout
| SetMustChange (value : bool).

Definition auth_step (s : AuthState) (a : auth_action) : AuthState :=
  match a with
  | Login t u must => login t u must s
  | Logout => logout s
  | SetMustChange value => setMustChange value s
  end.

Definition is_some {A : Type} (o : option A) : bool :=
  match o with Some _ => true | None => false end.

End Stores.

(* ================================================================= *)
(** ** TypeScript interface types and the JSON values they describe *)

Module TypeScript.
Import JsNumber.

Local Open Scope string_scope.

(** The fragment of TypeScript types the API declarations use.  A field of
    an object type is its name, whether it is optional ([name?: T]), and its
    type. *)
#[warnings="-register-all"]
Inductive ts_type : Type :=
| TString
| TNumber
| TBoolean
| TUnknown
| TLiteral (alternatives : list string)      (* ['BUY' | 'SELL' | 'HOLD'] *)
| TArray (elem : ts_type)                    (* [T[]] *)
| TRecord (value : ts_type)                  (* [Record<string, T>] *)
| TObject (fields : list (string * bool * ts_type)).

(** The values a response body can hold. *)
#[warnings="-register-all"]
Inductive json : Type :=
| JNull
| JBool (b : bool)
| JNumber (n : number)
| JString (s : string)
| JArray (items : list json)
| JObject (members : list (string * json)).

(** Property lookup; an object has one binding per key. *)
Fixpoint lookup (key : string) (members : list (string * json)) : option json :=
  match members with
  | [] => None
  | (k, v) :: rest => if String.eqb k key then Some v else lookup key rest
  end.

Definition get (key : string) (v : json) : option json :=
  match v with
  | JObject members => lookup key members
  | _ => None
  end.

(** [has_type v t]: the value [v] is assignable to [t].  Typing is
    structural: an object may carry members beyond the declared fields. *)
Fixpoint has_type (v : json) (t : ts_type) {struct t} : bool :=
  match t with
  | TString => match v with JString _ => true | _ => false end
  | TNumber => match v with JNumber _ => true | _ => false end
  | TBoolean => match v with JBool _ => true | _ => false end
  | TUnknown => true
  | TLiteral alternatives =>
      match v with
      | JString s => existsb (String.eqb s) alternatives
      | _ => false
      end
  | TArray elem =>
      match v with
      | JArray items => forallb (fun x => has_type x elem) items
      | _ => false
      end
  | TRecord value =>
      match v with
      | JObject members => forallb (fun kv => has_type (snd kv) value) members
      | _ => false
      end
  | TObject fields =>
      match v with
      | JObject members =>
          forallb
            (fun f =>
               match lookup (fst (fst f)) members with
               | Some x => has_type x (snd f)
               | None => snd (fst f)
               end)
            fields
      | _ => false
      end
  end.

(** The names an object type declares, in declaration order. *)
Definition field_names (t : ts_type) : list string :=
  match t with
  | TObject fields => map (fun f => fst (fst f)) fields
  | _ => []
  end.

(** The declared type of a field. *)
Definition field_type (name : string) (t : ts_type) : option ts_type :=
  match t with
  | TObject fields =>
      option_map (fun f => snd f)
        (find (fun f => String.eqb (fst (fst f)) name) fields)
  | _ => None
  end.

Definition required (name : string) (t : ts_type) : (string * bool * ts_type) :=
  (name, false, t).

Definition optional (name : string) (t : ts_type) : (string * bool * ts_type) :=
  (name, true, t).

End TypeScript.

(* ================================================================= *)
(** ** The API clients ([types/strategy], [types/backtest],
       [api/strategies], [api/backtest]) *)

Module Api.
Import JsNumber TypeScript.

Local Open Scope string_scope.

(** [interface Strategy] *)
Definition Strategy : ts_type :=
  TObject [ required "name" TString;
            required "description" TString;
            required "parameters" (TRecord TNumber) ].

(** [interface Signal] *)
Definition Signal : ts_type :=
  TObject [ required "signal_id" TString;
            required "symbol" TString;
            required "signal_type" (TLiteral ["BUY"; "SELL"; "HOLD"]);
            required "entry_price" TNumber;
            required "stop_loss" TNumber;
            required "take_profit" TNumber;
            required "strategy" TString;
            required "confidence" TNumber;
            required "timestamp" TString ].

(** [interface BacktestRequest] *)
Definition BacktestRequest : ts_type :=
  TObject [ required "strategy" TString;
            required "symbol" TString;
            required "start_date" TString;
            required "end_date" TString;
            required "initial_capital" TNumber;
            optional "params" (TRecord TUnknown) ].

(** [interface BacktestResponse] *)
Definition BacktestResponse : ts_type :=
  TObject [ required "backtest_id" TString;
            required "status" TString;
            required "message" TString ].

(** The [metrics] member of [interface BacktestResult]. *)
Definition BacktestMetrics : ts_type :=
  TObject [ required "total_return" TNumber;
            required "sharpe_ratio" TNumber;
            required "max_drawdown" TNumber;
            required "win_rate" TNumber;
            required "total_trades" TNumber ].

(** [interface BacktestResult] *)
Definition BacktestResult : ts_type :=
  TObject [ required "backtest_id" TString;
            required "summary" (TRecord TUnknown);
            required "metrics" BacktestMetrics;
            required "rating" (TRecord TUnknown) ].

Inductive http_method : Type := GET | POST.

(** A call through the axios [client]: [client.get<unknown, R>(url, { params })]
    or [client.post<unknown, R>(url, data, { params })].  The response
    interceptor hands back [res.data], typed [R]. *)
Record api_call : Type := {
  method : http_method;
  url : string;
  data : option json;
  params : list (string * json);
  response : ts_type
}.

(** [strategiesApi.list()] *)
Definition strategies_list : api_call :=
  {| method := GET;
     url := "/api/v1/strategies/strategies";
     data := None;
     params := [];
     response := TObject [ required "strategies" (TArray Strategy);
                           required "total" TNumber ] |}.

(** [strategiesApi.getSignals(params?)] *)
Definition strategies_getSignals (ps : list (string * json)) : api_call :=
  {| method := GET;
     url := "/api/v1/strategies/signals";
     data := None;
     params := ps;
     response := TObject [ required "signals" (TArray Signal);
                           required "total" TNumber ] |}.

(** [backtestApi.run(data)] *)
Definition backtest_run (request : json) : api_call :=
  {| method := POST;
     url := "/api/v1/backtest/run";
     data := Some request;
     params := [];
     response := BacktestResponse |}.

(** [backtestApi.getResults(id)] *)
Definition backtest_getResults (id : string) : api_call :=
  {| method := GET;
     url := "/api/v1/backtest/" ++ id ++ "/results";
     data := None;
     params := [];
     response := BacktestResult |}.

(** The Signal record as the specification words it, to compare with
    [Signal] above: fields [id], [symbol], [signal_type], [entry_price],
    [stop_loss], [take_profit], [strategy_name], [confidence], [timestamp]
    and [interval], with [confidence] in [[0,1]]. *)
Definition spec_Signal_fields : list string :=
  [ "id"; "symbol"; "signal_type"; "entry_price"; "stop_loss";
    "take_profit"; "strategy_name"; "confidence"; "timestamp"; "interval" ].

Definition has_member (v : json) (name : string) : bool :=
  match get name v with Some _ => true | None => false end.

Definition confidence_in_unit (v : json) : bool :=
  match get "confidence" v with
  | Some (JNumber c) => SFleb zero c && SFleb c one
  | _ => false
  end.

Definition spec_Signal_shape (v : json) : bool :=
  forallb (has_member v) spec_Signal_fields && confidence_in_unit v.

(** The result of [list_strategies] as the specification words it: a
    sequence of records. *)
Definition spec_is_sequence (v : json) : bool :=
  match v with JArray _ => true | _ => false end.

(** A signal as the dashboard receives it, with a confidence of [1.5]. *)
Definition sample_signal : json :=
  JObject [ ("signal_id", JString "sig-1");
            ("symbol", JString "BTC/USDT");
            ("signal_type", JString "BUY");
            ("entry_price", JNumber (of_Z 50000));
            ("stop_loss", JNumber (of_Z 49000));
            ("take_profit", JNumber (of_Z 52000));
            ("strategy", JString "trend_following");
            ("confidence", JNumber (S754_finite false 6755399441055744 (-52)));
            ("timestamp", JString "2026-02-08T12:00:00Z") ].

(** A response of [strategiesApi.list]. *)
Definition sample_strategies : json :=
  JObject [ ("strategies",
             JArray [ JObject [ ("name", JString "trend_following");
                                ("description", JString "MA/EMA crossover");
                                ("parameters",
                                 JObject [ ("fast_period", JNumber (of_Z 10));
                                           ("slow_period", JNumber (of_Z 20)) ]) ] ]);
            ("total", JNumber (of_Z 1)) ].

(** A value described by [interface Strategy]. *)
Definition is_strategy_value (x : json) : Prop :=
  (exists s, get "name" x = Some (JString s)) /\
  (exists s, get "description" x = Some (JString s)) /\
  (exists members, get "parameters" x = Some (JObject members) /\
     forall k p, In (k, p) members -> exists n, p = JNumber n).

(** A value described by [interface Signal]. *)
Definition is_signal_value (x : json) : Prop :=
  (exists s, get "signal_id" x = Some (JString s)) /\
  (exists s, get "symbol" x = Some (JString s)) /\
  (exists s, get "signal_type" x = Some (JString s) /\
             (s = "BUY" \/ s = "SELL" \/ s = "HOLD")) /\
  (exists n, get "entry_price" x = Some (JNumber n)) /\
  (exists n, get "stop_loss" x = Some (JNumber n)) /\
  (exists n, get "take_profit" x = Some (JNumber n)) /\
  (exists s, get "strategy" x = Some (JString s)) /\
  (exists n, get "confidence" x = Some (JNumber n)) /\
  (exists s, get "timestamp" x = Some (JString s)).

(** A value described by the [metrics] member of [interface BacktestResult]. *)
Definition is_metrics_value (m : json) : Prop :=
  (exists n, get "total_return" m = Some (JNumber n)) /\
  (exists n, get "sharpe_ratio" m = Some (JNumber n)) /\
  (exists n, get "max_drawdown" m = Some (JNumber n)) /\
  (exists n, get "win_rate" m = Some (JNumber n)) /\
  (exists n, get "total_trades" m = Some (JNumber n)).

(** A backtest request, the handle it is answered with, and the result the
    second query returns. *)
Definition sample_backtest_request : json :=
  JObject [ ("strategy", JString "trend_following");
            ("symbol", JString "BTC/USDT");
            ("start_date", JString "2026-01-01");
            ("end_date", JString "2026-02-01");
            ("initial_capital", JNumber (of_Z 10000)) ].

Definition sample_backtest_handle : json :=
  JObject [ ("backtest_id", JString "bt_123456");
            ("status", JString "pending");
            ("message", JString "accepted") ].

Definition sample_backtest_result : json :=
  JObject [ ("backtest_id", JString "bt_123456");
            ("summary", JObject []);
            ("metrics",
             JObject [ ("total_return", JNumber (of_Z 15));
                       ("sharpe_ratio", JNumber (of_Z 2));
                       ("max_drawdown", JNumber (of_Z 8));
                       ("win_rate", JNumber (of_Z 1));
                       ("total_trades", JNumber (of_Z 45)) ]);
            ("rating", JObject []) ].

End Api.

(* ================================================================= *)
(** ** Coloured numbers ([components/ui/PriceText], [components/ui/PercentBadge]) *)

Module Widgets.
Import JsNumber Format.

(** The CSS variables the components colour text with. *)
Inductive colour : Type :=
| success          (* [var(--success)] *)
| danger           (* [var(--danger)] *)
| warning          (* [var(--warning)] *)
| text_primary     (* [var(--text-primary)] *)
| text_secondary.  (* [var(--text-secondary)] *)

(** The arrow glyph of a badge: up, down, or the empty string. *)
Inductive glyph : Type :=
| ArrowUp
| ArrowDown
| NoArrow.

Section WithHost.

Variable Math_log10 : number -> number.
Variable parseFloat : string -> number.
Variable toLocaleString_enUS : number -> NumberFormatOptions -> string.
Variable toFixed : number -> number -> string.

(** *** [PriceText] *)

Record price_text : Type := {
  price_color : colour;
  price_label : string
}.

(** [PriceText({ value, precision, prevValue })]; an omitted prop is
    [None]. *)
Definition PriceText (v : value) (precision prevValue : option number)
    : price_text :=
  let num := to_number parseFloat v in
  let prev := match prevValue with
              | Some p => p
              | None => num
              end in
  {| price_color :=
       if ltb prev num then success
       else if ltb num prev then danger
       else text_primary;
     price_label :=
       formatPrice Math_log10 parseFloat toLocaleString_enUS
         (VNumber num) precision |}.

(** *** [PercentBadge] *)

Record percent_badge : Type := {
  badge_color : colour;
  badge_arrow : glyph;
  badge_label : string
}.

(** [PercentBadge({ value, precision = 2 })] *)
Definition PercentBadge (v : value) (precision : option number)
    : percent_badge :=
  let precision := match precision with
                   | Some p => p
                   | None => two
                   end in
  let num := to_number parseFloat v in
  let isUp := ltb zero num in
  let isDown := ltb num zero in
  {| badge_color :=
       if isUp then success else if isDown then danger else text_secondary;
     badge_arrow :=
       if isUp then ArrowUp else if isDown then ArrowDown else NoArrow;
     badge_label :=
       formatPercent parseFloat toFixed (VNumber num) (Some precision) |}.

End WithHost.
End Widgets.

(* ================================================================= *)
(** ** The candlestick chart ([components/business/KlineChart]) *)

Module KlineChart.
Import JsNumber.

(** The [Kline] rows of the market API: prices and volumes are decimal
    strings. *)
Record Kline : Type := {
  timestamp : string;
  open : string;
  high : string;
  low : string;
  close : string;
  volume : string;
  quote_volume : option string;
  trades_count : option number
}.

(** [klines[klines.length - 1]]; [None] exactly when [klines.length === 0]. *)
Fixpoint last_kline (klines : list Kline) : option Kline :=
  match klines with
  | [] => None
  | [k] => Some k
  | _ :: rest => last_kline rest
  end.

Section WithHost.

Variable Math_log10 : number -> number.
Variable parseFloat : string -> number.

(** [calcPrecision(klines)] *)
Definition calcPrecision (klines : list Kline) : number :=
  match last_kline klines with
  | None => two
  | Some k =>
      let lastClose := parseFloat (close k) in
      if isNaN lastClose || strict_eq lastClose zero then two
      else if geb lastClose one then two
      else
        let leadingZeros :=
          Math_floor (neg (Math_log10 (Math_abs lastClose))) in
        Math_min (add leadingZeros two) twelve
  end.

End WithHost.
End KlineChart.

(* ================================================================= *)
(** ** The symbol list ([components/layout/Sidebar]) *)

Module Sidebar.
Import Stores.
Local Open Scope string_scope.

(** [MAX_DISPLAY] *)
Definition MAX_DISPLAY : nat := 50.

(** [s.includes(keyword)] on strings: [keyword] occurs somewhere in [s]. *)
Fixpoint str_includes (s keyword : string) : bool :=
  prefix keyword s ||
  match s with
  | EmptyString => false
  | String _ rest => str_includes rest keyword
  end.

Section WithHost.

(** [String.prototype.toLowerCase] of the host. *)
Variable toLowerCase : string -> string.

(** [filtered]: the rows of the list of all symbols. *)
Definition filtered (search : string) (allSymbols : list string)
    : list string :=
  let keyword := toLowerCase search in
  let matched :=
    if negb (String.eqb keyword "")
    then filter (fun s => str_includes (toLowerCase s) keyword) allSymbols
    else allSymbols in
  firstn MAX_DISPLAY matched.

(** The rows of the favourites section. *)
Definition favorite_rows (search : string) (favorites : list string)
    : list string :=
  filter (fun s => str_includes (toLowerCase s) (toLowerCase search))
    favorites.

End WithHost.

(** [onToggleFav] of a row of the list of all symbols, and of a row of the
    favourites section. *)
Definition onToggleFav (sym : string) (favorites : list string)
    : list string :=
  if includes favorites sym then removeFavorite sym favorites
  else addFavorite sym favorites.

Definition onToggleFav_favorite (sym : string) (favorites : list string)
    : list string :=
  removeFavorite sym favorites.

End Sidebar.

(* ================================================================= *)
(** ** The route guard and the login pages ([App], [pages/Login], [pages/ChangePassword]) *)

Module Routing.
Import Stores.
Local Open Scope string_scope.

(** What a route element renders: a [<Navigate to=... replace />] or the
    application shell with the protected pages. *)
Inductive view : Type :=
| Navigate (to : string)
| AppShell.

(** [AuthGuard] *)
Definition AuthGuard (s : AuthState) : view :=
  if negb (isAuthenticated s) then Navigate "/login"
  else if mustChangePassword s then Navigate "/change-password"
  else AppShell.

(** The answer of [authApi.login]. *)
Record LoginResponse : Type := {
  res_token : string;
  res_username : string;
  must_change_password : bool
}.

(** [Login]'s [onFinish] once [authApi.login] has answered: the store after
    [login(...)] and the path handed to [navigate]. *)
Definition Login_onFinish (res : LoginResponse) (s : AuthState)
    : AuthState * string :=
  (login (res_token res) (res_username res) (must_change_password res) s,
   if must_change_password res then "/change-password" else "/dashboard").

(** [ChangePassword]'s [onFinish] once [authApi.changePassword] has
    succeeded: [logout()] and [navigate('/login')]; [None] when the two new
    passwords differ and nothing is sent. *)
Definition ChangePassword_onFinish (new_password confirm_password : string)
    (s : AuthState) : option (AuthState * string) :=
  if negb (String.eqb new_password confirm_password) then None
  else Some (logout s, "/login").

End Routing.

(* ================================================================= *)
(** ** The HTTP client ([api/client]) *)

Module Client.
Import JsNumber TypeScript.

Local Open Scope string_scope.

(** JS truthiness of a JSON value: [null], [false], [0], [-0], [NaN] and the
    empty string are falsy. *)
Definition truthy (v : json) : bool :=
  match v with
  | JNull => false
  | JBool b => b
  | JNumber n => negb (strict_eq n zero || isNaN n)
  | JString s => negb (String.eqb s "")
  | JArray _ | JObject _ => true
  end.

(** A property read: [None] is [undefined]. *)
Definition truthy_opt (o : option json) : bool :=
  match o with
  | Some v => truthy v
  | None => false
  end.


(** [new ApiError(code, message)] *)
Record ApiError : Type := {
  code : json;
  message : option json
}.

(** [err.response]: [status], [statusText] and the body [data]. *)
Record response : Type := {
  status : Z;
  statusText : string;
  body : option json
}.

(** What axios hands to the rejection handler: an error with a [response],
    or one without (network failure, timeout). *)
Inductive failure : Type :=
| HttpError (r : response)
| NoResponse (reason : string).

Inductive rejection : Type :=
| RejectApi (e : ApiError)
| RejectRaw (err : failure).



(** *** [localStorage] and [window.location] *)

Record browser : Type := {
  localStorage : list (string * string);
  pathname : string
}.

Fixpoint getItem (key : string) (items : list (string * string))
    : option string :=
  match items with
  | [] => None
  | (k, v) :: rest => if String.eqb k key then Some v else getItem key rest
  end.

Fixpoint setItem (key value : string) (items : list (string * string))
    : list (string * string) :=
  match items with
  | [] => [(key, value)]
  | (k, v) :: rest =>
      if String.eqb k key then (k, value) :: rest
      else (k, v) :: setItem key value rest
  end.

Definition removeItem (key : string) (items : list (string * string))
    : list (string * string) :=
  filter (fun kv => negb (String.eqb (fst kv) key)) items.

(** *** Object literals *)

(** The own keys [0], [1], ... of an array or a string. *)
Fixpoint indexed {A : Type} (i : nat) (f : A -> json) (xs : list A)
    : list (string * json) :=
  match xs with
  | [] => []
  | x :: rest =>
      (NilZero.string_of_uint (Nat.to_uint i), f x) :: indexed (S i) f rest
  end.

(** [{ ...v }]: the own enumerable properties of [v]; nothing for
    [undefined], [null], booleans and numbers. *)
Definition spread (v : option json) : list (string * json) :=
  match v with
  | Some (JObject members) => members
  | Some (JArray items) => indexed 0 (fun x => x) items
  | Some (JString s) =>
      indexed 0 (fun c => JString (String c "")) (list_ascii_of_string s)
  | _ => []
  end.

(** [{ ...members, [key]: value }]: a key the object has keeps its place. *)
Fixpoint set_member (key : string) (value : json)
    (members : list (string * json)) : list (string * json) :=
  match members with
  | [] => [(key, value)]
  | (k, v) :: rest =>
      if String.eqb k key then (k, value) :: rest
      else (k, v) :: set_member key value rest
  end.

(** [{ ...state, token: null, username: null, isAuthenticated: false,
       mustChangePassword: false }] *)
Definition signed_out (state : option json) : json :=
  JObject
    (set_member "mustChangePassword" (JBool false)
      (set_member "isAuthenticated" (JBool false)
        (set_member "username" JNull
          (set_member "token" JNull (spread state))))).

(** [startsWith('/login')] guards the redirect; assigning
    [window.location.href] navigates there. *)
Definition redirect_to_login (path : string) : string :=
  if prefix "/login" path then path else "/login".

Section WithHost.

(** [JSON.parse] ([None] when it throws), [JSON.stringify], and the string
    conversion of a value inside a template literal. *)
Variable JSON_parse : string -> option json.
Variable JSON_stringify : json -> string.
Variable ToString : json -> string.

(** The [try]/[catch] of the 401 branch.  The module is strict code:
    reading [parsed.state] throws for [null], and assigning [parsed.state]
    throws for a boolean, a number or a string; every throw ends in
    [removeItem].  An array takes the assignment, and [JSON.stringify]
    leaves the extra property out. *)
Definition clear_auth_store (items : list (string * string))
    : list (string * string) :=
  match getItem "auth-store" items with
  | None => items
  | Some raw =>
      if String.eqb raw "" then items
      else
        match JSON_parse raw with
        | Some (JObject members) =>
            setItem "auth-store"
              (JSON_stringify
                 (JObject
                    (set_member "state" (signed_out (lookup "state" members))
                       members)))
              items
        | Some (JArray xs) =>
            setItem "auth-store" (JSON_stringify (JArray xs)) items
        | _ => removeItem "auth-store" items
        end
  end.

(** [err.response.data?.detail || err.response.statusText] *)
Definition error_message (r : response) : json :=
  let detail := match body r with
                | Some d => get "detail" d
                | None => None
                end in
  match detail with
  | Some d => if truthy d then d else JString (statusText r)
  | None => JString (statusText r)
  end.

(** The response interceptor's second handler. *)
Definition on_rejected (w : browser) (err : failure) : browser * rejection :=
  match err with
  | HttpError r =>
      let w' :=
        if Z.eqb (status r) 401
        then {| localStorage := clear_auth_store (localStorage w);
                pathname := redirect_to_login (pathname w) |}
        else w in
      (w', RejectApi {| code := JNumber (of_Z (status r));
                        message := Some (error_message r) |})
  | NoResponse _ => (w, RejectRaw err)
  end.

(** [`Bearer ${token}`] *)
Definition bearer (token : json) : string :=
  "Bearer " ++ match token with
               | JString s => s
               | _ => ToString token
               end.

(** The value the request interceptor gives [config.headers.Authorization],
    if it sets it.  Destructuring [null] throws, and the [catch] swallows
    that and a failed parse alike. *)
Definition authorization (w : browser) : option string :=
  match getItem "auth-store" (localStorage w) with
  | None => None
  | Some raw =>
      if String.eqb raw "" then None
      else
        match JSON_parse raw with
        | None => None
        | Some JNull => None
        | Some parsed =>
            match get "state" parsed with
            | Some state =>
                match get "token" state with
                | Some token =>
                    if truthy token then Some (bearer token) else None
                | None => None
                end
            | None => None
            end
        end
  end.

(** [config.headers] *)
Definition headers : Type := list (string * string).

Fixpoint set_header (name value : string) (h : headers) : headers :=
  match h with
  | [] => [(name, value)]
  | (k, v) :: rest =>
      if String.eqb k name then (k, value) :: rest
      else (k, v) :: set_header name value rest
  end.

(** The request interceptor. *)
Definition on_request (w : browser) (h : headers) : headers :=
  match authorization w with
  | Some value => set_header "Authorization" value h
  | None => h
  end.

End WithHost.

(** [parsed.state?.token] of a stored value. *)
Definition stored_token (parsed : json) : option json :=
  match get "state" parsed with
  | Some state => get "token" state
  | None => None
  end.

(** What the verification asks of the host's JSON: writing a value and
    reading it back does not turn a falsy [state.token] into a truthy
    one. *)
Definition keeps_falsy_token
    (JSON_parse : string -> option json) (JSON_stringify : json -> string)
    : Prop :=
  forall v v' : json,
    JSON_parse (JSON_stringify v) = Some v' ->
    truthy_opt (stored_token v) = false ->
    truthy_opt (stored_token v') = false.

(** The [state] member the [persist] middleware keeps for [useAuthStore]. *)
Definition of_option_string (o : option string) : json :=
  match o with
  | Some s => JString s
  | None => JNull
  end.

Definition auth_members (s : Stores.AuthState) : list (string * json) :=
  [("token", of_option_string (Stores.token s));
   ("username", of_option_string (Stores.username s));
   ("mustChangePassword", JBool (Stores.mustChangePassword s));
   ("isAuthenticated", JBool (Stores.isAuthenticated s))].

(** *** A small host

    A host whose JSON knows two texts, to run the interceptors on a
    concrete [localStorage]. *)

Definition sample_session : json :=
  JObject
    [("state",
      JObject
        (auth_members
           (Stores.login "abc" "admin" false Stores.initial_auth)));
     ("version", JNumber zero)].

Definition sample_signed_out : json :=
  JObject
    [("state", JObject (auth_members Stores.initial_auth));
     ("version", JNumber zero)].

Definition sample_stringify (v : json) : string :=
  if truthy_opt (stored_token v) then "session" else "signed out".

Definition sample_parse (raw : string) : option json :=
  if String.eqb raw "session" then Some sample_session
  else if String.eqb raw "signed out" then Some sample_signed_out
  else None.

Definition sample_ToString (v : json) : string := "".

Definition sample_browser : browser :=
  {| localStorage := [("auth-store", "session")]; pathname := "/dashboard" |}.

Definition sample_401 : response :=
  {| status := 401; statusText := "Unauthorized";
     body := Some (JObject [("detail", JString "Token expired")]) |}.

End Client.

(* ================================================================= *)
(** ** The analysis engine, modelled from the specification

    The engine's code is not among the sources; what follows is written
    from the specification's words, with exact rationals for prices,
    confidences and capital, and integers (seconds) for time. *)

Module Engine.

Local Open Scope Q_scope.

(** Modelled from the spec: the engine's [signal_type], one of BUY, SELL and
    HOLD (data model, Signal). *)
Inductive signal_type : Type := BUY | SELL | HOLD.

(** Modelled from the spec: the engine's Signal record (data model). *)
Record Signal : Type := {
  id : string;
  symbol : string;
  kind : signal_type;           (* the field [signal_type] *)
  entry_price : Q;
  stop_loss : Q;
  take_profit : Q;
  strategy_name : string;
  confidence : Q;
  timestamp : Z;
  interval : string
}.

(** Modelled from the spec: the engine's Candle record (data model). *)
Record Candle : Type := {
  candle_time : Z;
  open_price : Q;
  high_price : Q;
  low_price : Q;
  close_price : Q;
  volume : Q
}.

(** Strict comparison on rationals, as a boolean. *)
Definition Qltb (x y : Q) : bool := negb (Qle_bool y x).

(** Equality test on [signal_type]. *)
Definition kind_eqb (a b : signal_type) : bool :=
  match a, b with
  | BUY, BUY | SELL, SELL | HOLD, HOLD => true
  | _, _ => false
  end.

(** Modelled from the spec: the engine's check that stop-loss and
    take-profit are on the correct side of the entry price (invariants:
    BUY: stop_loss < entry_price < take_profit; SELL: inverse). *)
Definition prices_ok (s : Signal) : bool :=
  match kind s with
  | BUY => Qltb (stop_loss s) (entry_price s) && Qltb (entry_price s) (take_profit s)
  | SELL => Qltb (take_profit s) (entry_price s) && Qltb (entry_price s) (stop_loss s)
  | HOLD => true
  end.

(** Modelled from the spec: the engine's check that [confidence] lies in
    [[0,1]]. *)
Definition confidence_ok (s : Signal) : bool :=
  Qle_bool 0 (confidence s) && Qle_bool (confidence s) 1.

(** Modelled from the spec: the engine's signal validation. *)
Definition valid_signal (s : Signal) : bool :=
  prices_ok s && confidence_ok s.

(** Modelled from the spec: the engine's emission gate, used by every
    strategy and by the aggregator: "violating signals are rejected, not
    emitted". *)
Definition emit (candidates : list Signal) : list Signal :=
  filter valid_signal candidates.

(** Modelled from the spec: the same gate of the engine, for one signal. *)
Definition emit_one (s : Signal) : option Signal :=
  if valid_signal s then Some s else None.

(** Modelled from the spec: a Strategy of the engine, [analyze] followed by
    [generate_signals]: from the candles seen so far to an ordered sequence
    of candidate signals, empty when no signal fires. *)
Definition Strategy : Type := list Candle -> list Signal.

(** Modelled from the spec: the signals a strategy of the engine emits for
    one evaluation. *)
Definition strategy_signals (strategy : Strategy) (candles : list Candle)
    : list Signal :=
  emit (strategy candles).

(** The side conditions of an emitted signal, as a proposition. *)
Definition signal_invariant (s : Signal) : Prop :=
  (kind s = BUY -> stop_loss s < entry_price s /\ entry_price s < take_profit s) /\
  (kind s = SELL -> take_profit s < entry_price s /\ entry_price s < stop_loss s) /\
  0 <= confidence s /\ confidence s <= 1.

(** Three candidate signals: a valid BUY, a valid SELL, and a BUY whose
    stop-loss is above its entry price. *)
Definition sample_buy : Signal :=
  {| id := "s1"; symbol := "BTC/USDT"; kind := BUY;
     entry_price := 100; stop_loss := 95; take_profit := 110;
     strategy_name := "trend_following"; confidence := 6 # 10;
     timestamp := 0; interval := "1h" |}.

Definition sample_sell : Signal :=
  {| id := "s2"; symbol := "BTC/USDT"; kind := SELL;
     entry_price := 100; stop_loss := 105; take_profit := 90;
     strategy_name := "mean_reversion"; confidence := 55 # 100;
     timestamp := 0; interval := "1h" |}.

Definition sample_bad_buy : Signal :=
  {| id := "s3"; symbol := "BTC/USDT"; kind := BUY;
     entry_price := 100; stop_loss := 105; take_profit := 110;
     strategy_name := "momentum"; confidence := 9 # 10;
     timestamp := 0; interval := "1h" |}.

(** A strategy that proposes the bad and the good BUY on every evaluation. *)
Definition sample_strategy : Strategy :=
  fun _ => [sample_bad_buy; sample_buy].

End Engine.

(* ================================================================= *)
(** ** The signal aggregator, modelled from the specification *)

Module Aggregator.
Import Engine.

Local Open Scope Q_scope.

(** Modelled from the spec: the aggregator's configuration: a weight per
    strategy and the closeness margin of the BUY/SELL conflict rule. *)
Record Config : Type := {
  weight : string -> Q;
  margin : Q
}.

(** Modelled from the spec: the aggregator's default, equal weights.  The
    spec leaves the default margin open; the model takes [1/10]. *)
Definition default_config : Config :=
  {| weight := fun _ => 1; margin := 1 # 10 |}.

(** Modelled from the spec: the aggregator's grouping by [signal_type]. *)
Definition group (k : signal_type) (candidates : list Signal) : list Signal :=
  filter (fun s => kind_eqb (kind s) k) candidates.

(** Modelled from the spec: the aggregator's summed confidence of a group. *)
Definition summed_confidence (g : list Signal) : Q :=
  fold_right (fun s acc => confidence s + acc) 0 g.

(** Modelled from the spec: the aggregator's normalized weighted average of
    the confidences of a group: the weighted sum over the total weight. *)
Definition weighted_sum (cfg : Config) (g : list Signal) : Q :=
  fold_right (fun s acc => weight cfg (strategy_name s) * confidence s + acc) 0 g.

(** Modelled from the spec: the aggregator's total weight of a group. *)
Definition total_weight (cfg : Config) (g : list Signal) : Q :=
  fold_right (fun s acc => weight cfg (strategy_name s) + acc) 0 g.

(** Modelled from the spec: the aggregator's confidence of a winning group. *)
Definition weighted_confidence (cfg : Config) (g : list Signal) : Q :=
  weighted_sum cfg g / total_weight cfg g.

(** Whether a group has a member. *)
Definition nonempty (g : list Signal) : bool :=
  match g with [] => false | _ :: _ => true end.

(** Modelled from the spec: the aggregator's conflict test: the BUY and SELL
    groups are both non-empty and their summed confidences are within the
    margin of each other. *)
Definition conflict (cfg : Config) (candidates : list Signal) : bool :=
  nonempty (group BUY candidates) && nonempty (group SELL candidates) &&
  Qle_bool
    (Qabs (summed_confidence (group BUY candidates) -
           summed_confidence (group SELL candidates)))
    (margin cfg).

(** Modelled from the spec: the aggregator's test that one type strictly
    dominates the two others by summed confidence. *)
Definition dominates (k : signal_type) (candidates : list Signal) : bool :=
  forallb
    (fun other =>
       kind_eqb other k ||
       Qltb (summed_confidence (group other candidates))
            (summed_confidence (group k candidates)))
    [BUY; SELL; HOLD].

(** Modelled from the spec: the final Signal the aggregator builds.  The
    spec fixes its type and confidence only; the model copies the other
    fields from a candidate of the evaluation (the first of the winning
    group) and names the aggregator as its strategy. *)
Definition final_signal (k : signal_type) (c : Q) (template : Signal) : Signal :=
  {| id := id template;
     symbol := symbol template;
     kind := k;
     entry_price := entry_price template;
     stop_loss := stop_loss template;
     take_profit := take_profit template;
     strategy_name := "aggregator";
     confidence := c;
     timestamp := timestamp template;
     interval := interval template |}.

(** Modelled from the spec: the aggregator's final Signal for a dominating
    type, if its group has a member. *)
Definition winner (cfg : Config) (k : signal_type) (candidates : list Signal)
    : option Signal :=
  match group k candidates with
  | [] => None
  | template :: _ =>
      Some (final_signal k (weighted_confidence cfg (group k candidates)) template)
  end.

(** Modelled from the spec: the aggregator's decision for the candidates of
    one (symbol, interval) evaluation.  The conflict rule comes first:
    disagreement resolves to HOLD; the spec does not say which confidence
    that HOLD carries and the model gives it [0].  Otherwise the strictly
    dominating type, if any, is emitted with the normalized weighted average
    of its group as confidence. *)
Definition aggregate (cfg : Config) (candidates : list Signal) : option Signal :=
  if conflict cfg candidates then
    match candidates with
    | [] => None
    | template :: _ => Some (final_signal HOLD 0 template)
    end
  else if dominates BUY candidates then winner cfg BUY candidates
  else if dominates SELL candidates then winner cfg SELL candidates
  else if dominates HOLD candidates then winner cfg HOLD candidates
  else None.

(** Modelled from the spec: what the aggregator emits: its decision, passed
    through the same gate as every signal. *)
Definition final_signals (cfg : Config) (candidates : list Signal) : list Signal :=
  match aggregate cfg candidates with
  | Some s => emit [s]
  | None => []
  end.

End Aggregator.

(* ================================================================= *)
(** ** The signal store, modelled from the specification *)

Module SignalStore.
Import Engine.

Local Open Scope Z_scope.

(** Modelled from the spec: the store's time-to-live, 24 hours in seconds
    (README: automatic expiration (24h)). *)
Definition TTL : Z := 24 * 3600.

(** Modelled from the spec: the store's retention cap (README: cleanup, max
    500 signals). *)
Definition CAP : nat := 500.

(** Modelled from the spec: the store's contents, an append-only log of
    signals, newest first. *)
Definition store : Type := list Signal.

(** Modelled from the spec: the store before any write. *)
Definition empty : store := [].

(** Modelled from the spec: the store's expiry test: an entry is older than
    the TTL at time [now]. *)
Definition expired (now : Z) (s : Signal) : bool := TTL <? now - timestamp s.

(** Modelled from the spec: the store's test that an entry is within the
    TTL at time [now]. *)
Definition live (now : Z) (s : Signal) : bool := negb (expired now s).

(** Modelled from the spec: the store's two write-time invariants, in the
    order the spec gives: (a) remove entries older than the TTL, (b)
    truncate to the most recent [CAP] entries. *)
Definition cleanup (now : Z) (st : store) : store :=
  firstn CAP (filter (live now) st).

(** Modelled from the spec: the store's [append(signal)], at time [now]. *)
Definition append (now : Z) (s : Signal) (st : store) : store :=
  cleanup now (s :: st).

(** Modelled from the spec: the store's optional [symbol] and [strategy]
    filters of a query. *)
Definition matches (sym strat : option string) (s : Signal) : bool :=
  match sym with Some x => String.eqb (symbol s) x | None => true end &&
  match strat with Some x => String.eqb (strategy_name s) x | None => true end.

(** Modelled from the spec: the store's [query(symbol?, strategy?, limit)],
    at time [now]: newest first, and never showing a reader a stale or
    over-cap store. *)
Definition query (now : Z) (sym strat : option string) (limit : nat)
    (st : store) : list Signal :=
  firstn limit (filter (matches sym strat) (cleanup now st)).

(** Modelled from the spec: the whole store as a reader sees it at time
    [now]. *)
Definition observe (now : Z) (st : store) : list Signal :=
  query now None None CAP st.

(** Modelled from the spec: a write to the store: the time of the append and
    the signal. *)
Definition write : Type := (Z * Signal)%type.

(** Modelled from the spec: any sequence of appends to the store, oldest
    write first. *)
Definition appends (ws : list write) (st : store) : store :=
  fold_left (fun acc w => append (fst w) (snd w) acc) ws st.

(** Six hundred signals, one written per second from time 0. *)
Definition signal_at (t : nat) : Signal :=
  {| id := "s"; symbol := "BTC/USDT"; kind := BUY;
     entry_price := 100; stop_loss := 95; take_profit := 110;
     strategy_name := "trend_following"; confidence := (1 # 2)%Q;
     timestamp := Z.of_nat t; interval := "1h" |}.

Definition sample_writes : list write :=
  map (fun t => (Z.of_nat t, signal_at t)) (seq 0 600).

(** No signal of [ws] is older than the TTL at the time of any write of
    [ws]. *)
Definition never_expired (ws : list write) : bool :=
  forallb (fun w => forallb (fun w' => fst w' - timestamp (snd w) <=? TTL) ws) ws.

End SignalStore.

(* ================================================================= *)
(** ** The backtest engine, modelled from the specification *)

Module Backtest.
Import Engine.

Local Open Scope Q_scope.

(** Modelled from the spec: a trade of the backtest engine's ledger while it
    is open: the signal it simulates, the index of the candle whose close
    produced the signal, and the candle at whose open it was entered. *)
Record OpenTrade : Type := {
  signal : Signal;
  signal_index : nat;
  entry_index : nat;
  entry_time : Z;
  fill_price : Q;
  size : Q
}.

(** Modelled from the spec: a closed trade of the backtest engine's ledger. *)
Record ClosedTrade : Type := {
  opened : OpenTrade;
  exit_index : nat;
  exit_price : Q;
  pnl : Q
}.

(** Modelled from the spec: the backtest engine's state while replaying:
    capital after the closed trades, the signals emitted at the previous
    candle's close (with that candle's index), the open trades, the ledger
    of closed trades (newest first), and the equity curve (oldest first). *)
Record State : Type := {
  capital : Q;
  pending : list (nat * Signal);
  positions : list OpenTrade;
  ledger : list ClosedTrade;
  equity_curve : list (Z * Q)
}.

(** Modelled from the spec: the BacktestResult (equity curve and metrics;
    the Sharpe ratio needs a square root and the rating is a configured
    composite: both are outside this model). *)
Record BacktestResult : Type := {
  result_equity_curve : list (Z * Q);
  total_return : Q;
  max_drawdown : Q;
  win_rate : Q;
  total_trades : nat;
  trades : list ClosedTrade
}.

(** Modelled from the spec: the BacktestRequest (data model).  The strategy
    named by [strategy_name] and the risk policy configured by [params] are
    handed to the engine as functions. *)
Record BacktestRequest : Type := {
  request_strategy_name : string;
  request_symbol : string;
  start_date : Z;
  end_date : Z;
  initial_capital : Q
}.

Section WithStrategy.

(** Modelled from the spec: the strategy under test and the injected risk
    policy (position size from capital and signal). *)
Variable strategy : Strategy.
Variable position_size : Q -> Signal -> Q.

(** Modelled from the spec: the backtest engine's state before the first
    candle. *)
Definition init (initial : Q) : State :=
  {| capital := initial; pending := []; positions := [];
     ledger := []; equity_curve := [] |}.

(** Modelled from the spec: the backtest engine's entry: a signal emitted at
    the close of candle [T] is entered on the next candle, at the signal's
    entry price. *)
Definition open_trade (cap : Q) (i : nat) (c : Candle) (p : nat * Signal)
    : OpenTrade :=
  {| signal := snd p;
     signal_index := fst p;
     entry_index := i;
     entry_time := candle_time c;
     fill_price := entry_price (snd p);
     size := position_size cap (snd p) |}.

(** Modelled from the spec: the backtest engine's exit test: stop-loss or
    take-profit touched by the candle's high/low.  When one candle touches
    both, the model takes the stop-loss. *)
Definition exit_on (c : Candle) (t : OpenTrade) : option Q :=
  match kind (signal t) with
  | BUY =>
      if Qle_bool (low_price c) (stop_loss (signal t))
      then Some (stop_loss (signal t))
      else if Qle_bool (take_profit (signal t)) (high_price c)
           then Some (take_profit (signal t))
           else None
  | SELL =>
      if Qle_bool (stop_loss (signal t)) (high_price c)
      then Some (stop_loss (signal t))
      else if Qle_bool (low_price c) (take_profit (signal t))
           then Some (take_profit (signal t))
           else None
  | HOLD => None
  end.

(** Modelled from the spec: the backtest engine's profit of a trade closed
    at price [px]. *)
Definition profit (t : OpenTrade) (px : Q) : Q :=
  match kind (signal t) with
  | BUY => size t * (px - fill_price t)
  | SELL => size t * (fill_price t - px)
  | HOLD => 0
  end.

(** Modelled from the spec: the backtest engine's ledger entry for a trade
    closed on candle [i]. *)
Definition close_trade (i : nat) (px : Q) (t : OpenTrade) : ClosedTrade :=
  {| opened := t; exit_index := i; exit_price := px; pnl := profit t px |}.

(** Modelled from the spec: the backtest engine closes the trades [exit_on]
    (or, on the last candle, the end of the window: forced close at the
    final close price) says to close; returns the trades still open and the
    newly closed ones. *)
Fixpoint settle (last : bool) (i : nat) (c : Candle) (ts : list OpenTrade)
    : list OpenTrade * list ClosedTrade :=
  match ts with
  | [] => ([], [])
  | t :: rest =>
      let (still, closed) := settle last i c rest in
      match exit_on c t with
      | Some px => (still, close_trade i px t :: closed)
      | None =>
          if last then (still, close_trade i (close_price c) t :: closed)
          else (t :: still, closed)
      end
  end.

(** Modelled from the spec: the backtest engine simulates BUY and SELL
    signals; HOLD is no action. *)
Definition tradable (s : Signal) : bool :=
  match kind s with HOLD => false | _ => true end.

(** Modelled from the spec: one step of the backtest engine's replay, for
    candle [c] at index [i] with [history] the candles up to and including
    [c]: enter the trades of the signals emitted at the previous close,
    close what this candle's high/low (or the end of the window) closes,
    evaluate the strategy on [history] only, and append the capital to the
    equity curve. *)
Definition step (history : list Candle) (c : Candle) (i : nat) (last : bool)
    (st : State) : State :=
  let entered := map (open_trade (capital st) i c) (pending st) in
  let (still, closed) := settle last i c (positions st ++ entered) in
  let cap := fold_left (fun acc t => acc + pnl t) closed (capital st) in
  {| capital := cap;
     pending := map (fun s => (i, s))
                    (filter tradable (strategy_signals strategy history));
     positions := still;
     ledger := rev closed ++ ledger st;
     equity_curve := equity_curve st ++ [(candle_time c, cap)] |}.

(** Modelled from the spec: the backtest engine's sequential replay, one
    candle at a time; [seen] are the candles already replayed. *)
Fixpoint replay (seen rest : list Candle) (st : State) : State :=
  match rest with
  | [] => st
  | c :: rest' =>
      let history := seen ++ [c] in
      replay history rest'
        (step history c (List.length seen)
              (match rest' with [] => true | _ => false end) st)
  end.

(** Modelled from the spec: a closed-profitable trade, for [win_rate]. *)
Definition is_win (t : ClosedTrade) : bool := Qltb 0 (pnl t).

(** Modelled from the spec: [max_drawdown], the largest peak-to-trough
    decline of the equity curve as a fraction of the peak. *)
Fixpoint drawdown (peak : Q) (worst : Q) (values : list Q) : Q :=
  match values with
  | [] => worst
  | v :: rest =>
      let peak' := if Qle_bool peak v then v else peak in
      let dd := (peak' - v) / peak' in
      drawdown peak' (if Qle_bool worst dd then dd else worst) rest
  end.

(** Modelled from the spec: the candles of the request's window,
    [candles[start_date:end_date]]. *)
Definition window (start_date end_date : Z) (candles : list Candle)
    : list Candle :=
  filter (fun c => (start_date <=? candle_time c)%Z &&
                   (candle_time c <=? end_date)%Z) candles.

(** Modelled from the spec: the backtest engine: replay the window, then
    compute the metrics. *)
Definition backtest (initial : Q) (candles : list Candle)
    : BacktestResult :=
  let final := replay [] candles (init initial) in
  {| result_equity_curve := equity_curve final;
     total_return := capital final / initial - 1;
     max_drawdown :=
       drawdown initial 0 (map snd (equity_curve final));
     win_rate :=
       inject_Z (Z.of_nat (List.length (filter is_win (ledger final)))) /
       inject_Z (Z.of_nat (List.length (ledger final)));
     total_trades := List.length (ledger final);
     trades := ledger final |}.

(** Modelled from the spec: [run_backtest(BacktestRequest)]: the engine run
    over the request's window of the candle table. *)
Definition run_backtest (request : BacktestRequest) (candles : list Candle)
    : BacktestResult :=
  backtest (initial_capital request)
           (window (start_date request) (end_date request) candles).

End WithStrategy.

(** A strategy that never fires. *)
Definition silent : Strategy := fun _ => [].

(** Modelled from the spec: candles are ordered ascending by timestamp,
    timestamps unique (data model, Candle). *)
Definition ascending (times : list Z) : Prop := StronglySorted Z.lt times.

(** What "entered at the next candle's open" means for a trade: its entry
    candle is the one after the candle whose close produced its signal, the
    signal was emitted from the candles up to that close only, and the
    entry time is the next candle's. *)
Definition entered_at_next_open (strategy : Strategy) (candles : list Candle)
    (t : OpenTrade) : Prop :=
  entry_index t = S (signal_index t) /\
  In (signal t)
     (strategy_signals strategy (firstn (S (signal_index t)) candles)) /\
  exists cT cE : Candle,
    nth_error candles (signal_index t) = Some cT /\
    nth_error candles (S (signal_index t)) = Some cE /\
    entry_time t = candle_time cE.

(** The replay invariant behind it, after [n] candles. *)
Definition well_entered (strategy : Strategy) (candles : list Candle)
    (n : nat) (st : State) : Prop :=
  (forall p, In p (pending st) ->
     S (fst p) = n /\
     In (snd p) (strategy_signals strategy (firstn (S (fst p)) candles))) /\
  (forall t, In t (positions st) -> entered_at_next_open strategy candles t) /\
  (forall ct, In ct (ledger st) ->
     entered_at_next_open strategy candles (opened ct)).

(** The replay invariant of a strategy that never fires. *)
Definition quiet (initial : Q) (seen : list Candle) (st : State) : Prop :=
  pending st = [] /\ positions st = [] /\ ledger st = [] /\
  capital st = initial /\
  equity_curve st = map (fun c => (candle_time c, initial)) seen.

(** Three hourly candles, a strategy that fires one BUY at the close of the
    first, and a risk policy of one unit per trade. *)
Definition sample_candles : list Candle :=
  [ {| candle_time := 0; open_price := 100; high_price := 101;
       low_price := 99; close_price := 100; volume := 1 |};
    {| candle_time := 3600; open_price := 100; high_price := 105;
       low_price := 98; close_price := 104; volume := 1 |};
    {| candle_time := 7200; open_price := 104; high_price := 111;
       low_price := 103; close_price := 110; volume := 1 |} ].

Definition enter_once : Strategy :=
  fun history =>
    match history with
    | [_] => [sample_buy]
    | _ => []
    end.

Definition one_unit : Q -> Signal -> Q := fun _ _ => 1.

Definition sample_request : BacktestRequest :=
  {| request_strategy_name := "enter_once";
     request_symbol := "BTC/USDT";
     start_date := 0;
     end_date := 7200;
     initial_capital := 10000 |}.

End Backtest.

(* ================================================================= *)
(** * Part II: verification *)

Module JsNumberFacts.
Import JsNumber.

Lemma sf_eqb_eq (x y : number) : sf_eqb x y = true -> x = y.
Proof.
  destruct x as [a|a| |a m e], y as [b|b| |b n f]; simpl; try discriminate;
    try reflexivity.
  - intros H; apply eqb_prop in H; now subst.
  - intros H; apply eqb_prop in H; now subst.
  - intros H. apply andb_prop in H as [H He]. apply andb_prop in H as [Hs Hm].
    apply eqb_prop in Hs. apply Pos.eqb_eq in Hm. apply Z.eqb_eq in He.
    now subst.
Qed.

(** *** Canonical binary64 mantissas *)

Lemma digits2_pos_size (m : positive) : digits2_pos m = Pos.size m.
Proof. induction m; simpl; congruence. Qed.

Lemma wf_finite_bounds (s : bool) (m : positive) (e : Z) :
  wf (S754_finite s m e) ->
  Zpos m < 2 ^ 53 /\ -1074 <= e <= 971.
Proof.
  unfold wf, valid_binary, bounded, canonical_mantissa, fexp, SpecFloat.emin,
    prec, emax.
  intros H. apply andb_prop in H as [Hc He].
  apply Z.eqb_eq in Hc. apply Z.leb_le in He.
  rewrite digits2_pos_size in Hc.
  assert (Hd : Zpos (Pos.size m) <= 53) by lia.
  split; [|lia].
  pose proof (Pos.size_gt m) as Hgt.
  apply Pos2Z.pos_lt_pos in Hgt. rewrite Pos2Z.inj_pow in Hgt.
  eapply Z.lt_le_trans; [exact Hgt|].
  apply Z.pow_le_mono_r; lia.
Qed.

Lemma wf_neg (x : number) : wf x -> wf (neg x).
Proof. destruct x; simpl; auto. Qed.

Lemma wf_abs (x : number) : wf x -> wf (Math_abs x).
Proof. destruct x; simpl; auto. Qed.

End JsNumberFacts.

(* ================================================================= *)
(** ** The price formatter *)

Module FormatFacts.
Import JsNumber JsNumberFacts Format.

Lemma small_check_all :
  forallb small_check (map Z.of_nat (seq 0 325)) = true.
Proof. vm_compute. reflexivity. Qed.

Lemma small_precision (k : Z) :
  0 <= k <= 324 ->
  Math_min (add (of_Z k) two) twelve = of_Z (Z.min (k + 2) 12).
Proof.
  intros Hk. apply sf_eqb_eq.
  pose proof small_check_all as Hall.
  rewrite forallb_forall in Hall. apply (Hall k).
  apply in_map_iff. exists (Z.to_nat k). split; [lia|].
  apply in_seq. lia.
Qed.

Lemma of_Z_m324 : of_Z (-324) = S754_finite true 5699868278390784 (-44).
Proof. reflexivity. Qed.

Lemma floor_neg_log (l : number) :
  wf l ->
  SFleb (of_Z (-324)) l = true ->
  SFleb l zero = true ->
  0 <= floorZ (neg l) <= 324 /\
  add (Math_floor (neg l)) two = add (of_Z (floorZ (neg l))) two.
Proof.
  intros Hwf Hlo Hhi. rewrite of_Z_m324 in Hlo.
  destruct l as [s|s| |s m e].
  - split; [simpl; lia|]. destruct s; reflexivity.
  - destruct s; discriminate.
  - discriminate.
  - destruct s; [|discriminate].
    apply wf_finite_bounds in Hwf as [Hm He].
    unfold SFleb, SFcompare in Hlo.
    unfold neg, SFopp, floorZ, Math_floor, floorZ_finite. cbn [negb cond_Zopp].
    assert (Hcase : e < -44 \/ (e = -44 /\ Zpos m <= 5699868278390784)).
    { destruct (Z.compare (-44) e) eqn:Hce.
      - apply Z.compare_eq in Hce. right. split; [lia|].
        change (PosDef.Pos.compare_cont Eq 5699868278390784 m)
          with (Pos.compare 5699868278390784 m) in Hlo.
        destruct (Pos.compare 5699868278390784 m) eqn:Hc;
          cbn [CompOpp] in Hlo.
        + apply Pos.compare_eq in Hc. rewrite <- Hc. reflexivity.
        + discriminate Hlo.
        + apply Pos.compare_gt_iff in Hc. apply Pos2Z.pos_lt_pos in Hc.
          apply Z.lt_le_incl. exact Hc.
      - discriminate Hlo.
      - apply Z.compare_gt_iff in Hce. left. exact Hce. }
    assert (He0 : (0 <=? e) = false) by (apply Z.leb_gt; lia).
    rewrite He0. split; [|reflexivity].
    split.
    + apply Z.div_pos; [lia|]. apply Z.pow_pos_nonneg; lia.
    + destruct Hcase as [Hlt|[-> Hle]].
      * apply Z.div_le_upper_bound; [apply Z.pow_pos_nonneg; lia|].
        assert (H45 : 2 ^ 45 <= 2 ^ (- e)) by (apply Z.pow_le_mono_r; lia).
        assert (H53 : 2 ^ 53 = 2 ^ 45 * 256) by reflexivity.
        nia.
      * apply Z.div_le_upper_bound; [reflexivity|].
        change (2 ^ (- -44) * 324) with 5699868278390784. exact Hle.
Qed.

Lemma SFcompare_antisym (x y : number) :
  SFcompare y x = option_map CompOpp (SFcompare x y).
Proof.
  destruct x as [a|a| |a m e], y as [b|b| |b n f]; simpl;
    try reflexivity;
    try (destruct a; reflexivity); try (destruct b; reflexivity);
    try (destruct a, b; reflexivity).
  f_equal. rewrite (Z.compare_antisym e f).
  change (PosDef.Pos.compare_cont Eq n m) with (Pos.compare n m).
  change (PosDef.Pos.compare_cont Eq m n) with (Pos.compare m n).
  rewrite (Pos.compare_antisym m n).
  destruct a, b; try reflexivity;
    destruct (e ?= f); simpl; try reflexivity;
    destruct (m ?= n)%positive; reflexivity.
Qed.

Lemma ltb_not_geb (x y : number) : ltb x y = true -> geb x y = false.
Proof.
  unfold ltb, geb, SFltb, SFleb. rewrite (SFcompare_antisym x y).
  destruct (SFcompare x y) as [[| |]|]; simpl; congruence.
Qed.

Lemma pos_not_zero_nan (n : number) :
  ltb zero (Math_abs n) = true -> strict_eq n zero || isNaN n = false.
Proof.
  unfold ltb, strict_eq, SFltb, SFeqb.
  destruct n as [s|s| |s m e]; try destruct s; simpl; congruence.
Qed.

(** *** [getSmartPrecision] and [formatPrice] *)

Section WithHost.
Variable Math_log10 : number -> number.
Variable parseFloat : string -> number.
Variable toLocaleString_enUS : number -> NumberFormatOptions -> string.

Lemma getSmartPrecision_two (n : number) :
  strict_eq n zero = true \/ isNaN n = true \/ geb (Math_abs n) one = true ->
  getSmartPrecision Math_log10 n = two.
Proof.
  intros H. unfold getSmartPrecision.
  destruct (strict_eq n zero || isNaN n) eqn:Hz; [reflexivity|].
  apply orb_false_elim in Hz as [Hz Hn].
  destruct H as [H|[H|H]]; try congruence.
  cbv zeta. rewrite H. reflexivity.
Qed.

Lemma getSmartPrecision_fraction (n : number) :
  ltb zero (Math_abs n) = true -> ltb (Math_abs n) one = true ->
  getSmartPrecision Math_log10 n =
  Math_min (add (Math_floor (neg (Math_log10 (Math_abs n)))) two) twelve.
Proof.
  intros H0 H1. unfold getSmartPrecision.
  rewrite (pos_not_zero_nan n H0). cbv zeta.
  rewrite (ltb_not_geb _ _ H1). reflexivity.
Qed.

Lemma getSmartPrecision_fraction_Z (n : number) :
  ltb zero (Math_abs n) = true -> ltb (Math_abs n) one = true ->
  log10_in_range Math_log10 (Math_abs n) ->
  0 <= floorZ (neg (Math_log10 (Math_abs n))) <= 324 /\
  getSmartPrecision Math_log10 n =
  of_Z (Z.min (floorZ (neg (Math_log10 (Math_abs n))) + 2) 12).
Proof.
  intros H0 H1 (Hwf & Hlo & Hhi).
  destruct (floor_neg_log _ Hwf Hlo Hhi) as [Hk Hadd].
  split; [exact Hk|].
  rewrite (getSmartPrecision_fraction n H0 H1), Hadd.
  apply small_precision. exact Hk.
Qed.

(** Every value falls in one of the branches of [getSmartPrecision]. *)
Lemma number_cases (n : number) :
  wf n ->
  strict_eq n zero = true \/ isNaN n = true \/ geb (Math_abs n) one = true \/
  (ltb zero (Math_abs n) = true /\ ltb (Math_abs n) one = true).
Proof.
  intros Hwf. destruct n as [s|s| |s m e].
  - left. reflexivity.
  - right; right; left. reflexivity.
  - right; left. reflexivity.
  - right; right.
    destruct (geb (Math_abs (S754_finite s m e)) one) eqn:Hg; [now left|right].
    split; [reflexivity|].
    unfold ltb, SFltb. unfold geb, SFleb in Hg.
    rewrite (SFcompare_antisym (Math_abs (S754_finite s m e)) one) in Hg.
    destruct (SFcompare (Math_abs (S754_finite s m e)) one) as [[| |]|] eqn:Hc;
      simpl in Hg; try congruence.
    discriminate Hc.
Qed.

Lemma getSmartPrecision_range (n : number) :
  wf n ->
  (ltb zero (Math_abs n) = true -> ltb (Math_abs n) one = true ->
   log10_in_range Math_log10 (Math_abs n)) ->
  exists k : Z, 2 <= k <= 12 /\ getSmartPrecision Math_log10 n = of_Z k.
Proof.
  intros Hwf Hlog.
  destruct (number_cases n Hwf) as [H|[H|[H|[H0 H1]]]].
  - exists 2. split; [lia|]. apply getSmartPrecision_two; auto.
  - exists 2. split; [lia|]. apply getSmartPrecision_two; auto.
  - exists 2. split; [lia|]. apply getSmartPrecision_two; auto.
  - destruct (getSmartPrecision_fraction_Z n H0 H1 (Hlog H0 H1)) as [Hk Hp].
    exists (Z.min (floorZ (neg (Math_log10 (Math_abs n))) + 2) 12).
    split; [lia|exact Hp].
Qed.

Lemma formatPrice_default (v : value) :
  formatPrice Math_log10 parseFloat toLocaleString_enUS v None =
  if isNaN (to_number parseFloat v) then "0.00"%string
  else
    let p := getSmartPrecision Math_log10 (to_number parseFloat v) in
    toLocaleString_enUS (to_number parseFloat v)
      {| minimumFractionDigits := p; maximumFractionDigits := p |}.
Proof. reflexivity. Qed.

End WithHost.

(** [getSmartPrecision] depends on the magnitude only. *)
Theorem getSmartPrecision_neg (Math_log10 : number -> number) (n : number) :
  getSmartPrecision Math_log10 (neg n) = getSmartPrecision Math_log10 n.
Proof.
  unfold getSmartPrecision.
  assert (Hz : strict_eq (neg n) zero = strict_eq n zero)
    by (destruct n as [s|s| |s m e]; try destruct s; reflexivity).
  assert (Hn : isNaN (neg n) = isNaN n) by (destruct n; reflexivity).
  assert (Ha : Math_abs (neg n) = Math_abs n) by (destruct n; reflexivity).
  rewrite Hz, Hn, Ha. reflexivity.
Qed.



(** C9.  For every binary64 number [n] (given directly or parsed from a
    string), [getSmartPrecision n] is an integer between 2 and 12; it is
    exactly 2 when [n] is zero, NaN or [|n| >= 1]; for [0 < |n| < 1] it is
    [min(floor(-log10 |n|) + 2, 12)], both as the float expression of the
    source and as the integer it denotes; and [formatPrice] without an
    explicit precision returns ["0.00"] (two fraction digits, the smart
    precision of NaN) for NaN and otherwise asks [toLocaleString] for
    exactly [getSmartPrecision n] minimum and maximum fraction digits, so
    that on a host honouring these options every finite price is printed
    with exactly that many fraction digits. *)
Theorem getSmartPrecision_formatPrice_spec
  (Math_log10 : number -> number) (parseFloat : string -> number)
  (toLocaleString_enUS : number -> NumberFormatOptions -> string)
  (v : value) :
  let n := to_number parseFloat v in
  let p := getSmartPrecision Math_log10 n in
  wf n ->
  (ltb zero (Math_abs n) = true -> ltb (Math_abs n) one = true ->
   log10_in_range Math_log10 (Math_abs n)) ->
  (exists k : Z, 2 <= k <= 12 /\ p = of_Z k) /\
  (strict_eq n zero = true \/ isNaN n = true \/ geb (Math_abs n) one = true ->
   p = of_Z 2) /\
  (ltb zero (Math_abs n) = true /\ ltb (Math_abs n) one = true ->
   p = Math_min (add (Math_floor (neg (Math_log10 (Math_abs n)))) (of_Z 2))
         (of_Z 12) /\
   p = of_Z (Z.min (floorZ (neg (Math_log10 (Math_abs n))) + 2) 12)) /\
  (isNaN n = true ->
   fraction_digits
     (formatPrice Math_log10 parseFloat toLocaleString_enUS v None)
   = Some 2%nat) /\
  (isNaN n = false ->
   formatPrice Math_log10 parseFloat toLocaleString_enUS v None =
   toLocaleString_enUS n
     {| minimumFractionDigits := p; maximumFractionDigits := p |}) /\
  (honours_fraction_digits toLocaleString_enUS -> is_finite n = true ->
   exists k : Z,
     2 <= k <= 12 /\ p = of_Z k /\
     fraction_digits
       (formatPrice Math_log10 parseFloat toLocaleString_enUS v None)
     = Some (Z.to_nat k)).
Proof.
  intros n p Hwf Hlog.
  assert (Hrange : exists k : Z, 2 <= k <= 12 /\ p = of_Z k)
    by (apply getSmartPrecision_range; assumption).
  split; [exact Hrange|]. split; [apply getSmartPrecision_two|].
  split; [|split; [|split]].
  - intros [H0 H1]. split.
    + apply getSmartPrecision_fraction; assumption.
    + apply getSmartPrecision_fraction_Z; auto.
  - intros Hnan. rewrite formatPrice_default. fold n. rewrite Hnan.
    reflexivity.
  - intros Hnan. rewrite formatPrice_default. fold n. rewrite Hnan.
    reflexivity.
  - intros Hhost Hfin. destruct Hrange as (k & Hk & Hp).
    exists k. split; [exact Hk|]. split; [exact Hp|].
    rewrite formatPrice_default. fold n.
    assert (Hnan : isNaN n = false) by (destruct n; try reflexivity; discriminate).
    rewrite Hnan. cbv zeta. fold p. rewrite Hp.
    apply Hhost; [exact Hfin|lia].
Qed.

Lemma zeros_length (n : nat) : String.length (zeros n) = n.
Proof. induction n as [|n IH]; simpl; [reflexivity|now rewrite IH]. Qed.

Lemma digits_check_all :
  forallb digits_check (map Z.of_nat (seq 0 101)) = true.
Proof. vm_compute. reflexivity. Qed.

Lemma floorZ_of_Z (k : Z) : 0 <= k <= 100 -> floorZ (of_Z k) = k.
Proof.
  intros Hk. pose proof digits_check_all as Hall.
  rewrite forallb_forall in Hall.
  apply Z.eqb_eq. apply (Hall k).
  apply in_map_iff. exists (Z.to_nat k). split; [lia|].
  apply in_seq. lia.
Qed.

(** The stand-in formatter honours the fraction digits. *)
Lemma zeros_honours : honours_fraction_digits zeros_toLocaleString.
Proof.
  intros x k _ Hk. unfold zeros_toLocaleString.
  cbn [maximumFractionDigits fraction_digits].
  change (Ascii.eqb "0" ".") with false. change (Ascii.eqb "." ".") with true.
  cbv iota. rewrite zeros_length, floorZ_of_Z by lia. reflexivity.
Qed.

(** The source's own example: [0.00000789] gets 7 fraction digits. *)
Lemma getSmartPrecision_formatPrice_spec_witness :
  wf sample_price /\
  log10_in_range log10_at_sample (Math_abs sample_price) /\
  getSmartPrecision log10_at_sample sample_price = of_Z 7 /\
  fraction_digits
    (formatPrice log10_at_sample (fun _ => NaN) zeros_toLocaleString
       (VNumber sample_price) None) = Some 7%nat.
Proof.
  assert (Hwf : wf sample_price) by reflexivity.
  assert (Hlog : log10_in_range log10_at_sample (Math_abs sample_price)).
  { repeat split. }
  split; [exact Hwf|]. split; [exact Hlog|].
  pose proof (getSmartPrecision_formatPrice_spec log10_at_sample
                (fun _ => NaN) zeros_toLocaleString
                (VNumber sample_price) Hwf (fun _ _ => Hlog))
    as (_ & _ & Hfrac & _ & _ & Hhost).
  destruct (Hfrac (conj eq_refl eq_refl)) as [_ Hp].
  split; [exact Hp|].
  destruct (Hhost zeros_honours eq_refl) as (k & Hk & Hpk & Hd).
  rewrite Hd. f_equal.
  rewrite Hp in Hpk. apply (f_equal floorZ) in Hpk.
  rewrite (floorZ_of_Z k) in Hpk by lia.
  rewrite <- Hpk. reflexivity.
Defined.

End FormatFacts.

(* ================================================================= *)
(** ** The reconnection back-off *)

Module TickerWebSocketFacts.
Import TickerWebSocket.

Lemma run_app (s : hook_state) (t1 t2 : list event) :
  run s (t1 ++ t2) = run (run s t1) t2.
Proof. unfold run. apply fold_left_app. Qed.

(** Without an [Open], the counter grows by the number of [Close]s. *)
Lemma retries_no_open (trace : list event) :
  forall s : hook_state,
    forallb (fun ev => negb (is_open ev)) trace = true ->
    retries (run s trace) = (retries s + closes trace)%nat.
Proof.
  induction trace as [|ev trace IH]; intros s Hno.
  - unfold closes. simpl. lia.
  - simpl in Hno. apply andb_prop in Hno as [Hev Hno].
    change (run s (ev :: trace)) with (run (handle s ev) trace).
    rewrite (IH _ Hno). unfold closes.
    destruct ev as [|sym [p|]| |]; simpl in *; try discriminate; try lia.
    destruct (String.eqb sym EmptyString); simpl; lia.
Qed.

Lemma retries_after_open (s : hook_state) (pre post : list event) :
  forallb (fun ev => negb (is_open ev)) post = true ->
  retries (run s (pre ++ Open :: post)) = closes post.
Proof.
  intros Hno. rewrite run_app.
  change (run (run s pre) (Open :: post))
    with (run (handle (run s pre) Open) post).
  rewrite (retries_no_open post _ Hno). reflexivity.
Qed.

Lemma close_schedules (s : hook_state) :
  reconnects (handle s Close) = reconnects s ++ [reconnect_delay (retries s)].
Proof. reflexivity. Qed.

Lemma reconnect_delay_mono (j k : nat) :
  (j <= k)%nat -> reconnect_delay j <= reconnect_delay k.
Proof.
  intros Hjk. unfold reconnect_delay.
  assert (2 ^ Z.of_nat j <= 2 ^ Z.of_nat k) by (apply Z.pow_le_mono_r; lia).
  lia.
Qed.

Lemma reconnect_delay_bounds (k : nat) : 1000 <= reconnect_delay k <= 30000.
Proof.
  unfold reconnect_delay.
  assert (0 < 2 ^ Z.of_nat k) by (apply Z.pow_pos_nonneg; lia).
  lia.
Qed.

(** The delays are 1, 2, 4, 8 and 16 seconds, then 30 seconds for good. *)
Theorem reconnect_delay_closed_form (k : nat) :
  reconnect_delay k =
  if (k <=? 4)%nat then 1000 * 2 ^ Z.of_nat k else 30000.
Proof.
  unfold reconnect_delay. destruct (k <=? 4)%nat eqn:Hk.
  - apply Nat.leb_le in Hk.
    assert (H16 : 2 ^ Z.of_nat k <= 2 ^ 4) by (apply Z.pow_le_mono_r; lia).
    change (2 ^ 4) with 16 in H16. lia.
  - apply Nat.leb_gt in Hk.
    assert (H32 : 2 ^ 5 <= 2 ^ Z.of_nat k) by (apply Z.pow_le_mono_r; lia).
    change (2 ^ 5) with 32 in H32. lia.
Qed.

Lemma price_of_filter (symbol other : string) (ps : list (string * JsNumber.number)) :
  String.eqb other symbol = false ->
  price_of other
    (filter (fun kv => negb (String.eqb (fst kv) symbol)) ps)
  = price_of other ps.
Proof.
  intros Hne. induction ps as [|[k v] ps IH]; [reflexivity|].
  cbn [filter fst]. destruct (String.eqb k symbol) eqn:Hk; cbn [negb price_of].
  - apply String.eqb_eq in Hk. subst k.
    rewrite String.eqb_sym, Hne. exact IH.
  - rewrite IH. reflexivity.
Qed.

(** After [updatePrice(symbol, price)] the store holds [price] for [symbol]
    and what it held before for every other symbol. *)
Theorem updatePrice_lookup (symbol other : string) (price : JsNumber.number)
    (ps : list (string * JsNumber.number)) :
  price_of other (updatePrice symbol price ps) =
  if String.eqb other symbol then Some price else price_of other ps.
Proof.
  unfold updatePrice. cbn [price_of]. rewrite (String.eqb_sym symbol other).
  destruct (String.eqb other symbol) eqn:Hne; [reflexivity|].
  apply price_of_filter. exact Hne.
Qed.

(** Price messages and socket errors leave the connection flag, the retry
    counter and the scheduled reconnects alone. *)
Theorem message_keeps_backoff (s : hook_state) (symbol : string)
    (price : option JsNumber.number) :
  connected (handle s (Message symbol price)) = connected s /\
  retries (handle s (Message symbol price)) = retries s /\
  reconnects (handle s (Message symbol price)) = reconnects s /\
  handle s Error = s.
Proof.
  destruct price as [p|]; cbn [handle];
    [destruct (String.eqb symbol EmptyString)|]; repeat split.
Qed.

(** C10.  In the ticker WebSocket hook, the delay scheduled on the close
    that follows [k] consecutive closes since the last successful open (or
    since mount) is [min(1000 * 2^k, 30000)] ms; the delays are
    nondecreasing in [k], never above 30 seconds, and every successful open
    resets the retry counter to 0. *)
Theorem reconnect_backoff
    (s : hook_state) (pre post : list event) (j k : nat) :
  forallb (fun ev => negb (is_open ev)) post = true ->
  (j <= k)%nat ->
  reconnects (run s (pre ++ Open :: post ++ [Close])) =
    reconnects (run s (pre ++ Open :: post)) ++
    [Z.min (1000 * 2 ^ Z.of_nat (closes post)) 30000] /\
  reconnects (run initial (post ++ [Close])) =
    reconnects (run initial post) ++
    [Z.min (1000 * 2 ^ Z.of_nat (closes post)) 30000] /\
  reconnect_delay j <= reconnect_delay k /\
  reconnect_delay k <= 30000 /\
  retries (handle s Open) = 0%nat /\
  retries (run s (pre ++ [Open])) = 0%nat.
Proof.
  intros Hno Hjk. split; [|split; [|split; [|split; [|split]]]].
  - replace (pre ++ Open :: post ++ [Close])
      with ((pre ++ Open :: post) ++ [Close])
      by (rewrite <- app_assoc; reflexivity).
    rewrite run_app.
    change (run (run s (pre ++ Open :: post)) [Close])
      with (handle (run s (pre ++ Open :: post)) Close).
    rewrite close_schedules, (retries_after_open s pre post Hno).
    reflexivity.
  - rewrite run_app.
    change (run (run initial post) [Close])
      with (handle (run initial post) Close).
    rewrite close_schedules, (retries_no_open post initial Hno).
    reflexivity.
  - apply reconnect_delay_mono. exact Hjk.
  - apply reconnect_delay_bounds.
  - reflexivity.
  - rewrite run_app. reflexivity.
Qed.

(** Two failed attempts, a successful open, then a drop, a price message, an
    error and a second drop: the next reconnect waits [1000 * 2^2] ms. *)
Lemma reconnect_backoff_witness :
  reconnects
    (run initial
       ([Close; Close] ++
        Open :: [Close; Message "BTC/USDT" (Some JsNumber.one); Error; Close]
        ++ [Close]))
  = [1000; 2000; 1000; 2000; 4000].
Proof.
  pose proof (reconnect_backoff initial [Close; Close]
                [Close; Message "BTC/USDT" (Some JsNumber.one); Error; Close]
                2 5 eq_refl ltac:(lia)) as (H & _).
  rewrite H. reflexivity.
Defined.

End TickerWebSocketFacts.

(* ================================================================= *)
(** ** The API types *)

Module ApiFacts.
Import JsNumber TypeScript Api.

Local Open Scope string_scope.

(** *** Inversion of [has_type] *)

Lemma has_type_string (v : json) :
  has_type v TString = true -> exists s, v = JString s.
Proof. destruct v; simpl; try discriminate. eauto. Qed.

Lemma has_type_number (v : json) :
  has_type v TNumber = true -> exists n, v = JNumber n.
Proof. destruct v; simpl; try discriminate. eauto. Qed.

Lemma has_type_literal (v : json) (alts : list string) :
  has_type v (TLiteral alts) = true -> exists s, v = JString s /\ In s alts.
Proof.
  destruct v; simpl; try discriminate. intros H.
  apply existsb_exists in H as (a & Hin & Heq).
  apply String.eqb_eq in Heq. subst. eauto.
Qed.

Lemma has_type_array (v : json) (t : ts_type) :
  has_type v (TArray t) = true ->
  exists items, v = JArray items /\ forall x, In x items -> has_type x t = true.
Proof.
  destruct v; simpl; try discriminate. intros H.
  rewrite forallb_forall in H. eauto.
Qed.

Lemma has_type_record (v : json) (t : ts_type) :
  has_type v (TRecord t) = true ->
  exists members, v = JObject members /\
    forall k x, In (k, x) members -> has_type x t = true.
Proof.
  destruct v; simpl; try discriminate. intros H.
  rewrite forallb_forall in H. eexists; split; [reflexivity|].
  intros k x Hin. apply (H (k, x) Hin).
Qed.

Lemma has_type_field (v : json) (fields : list (string * bool * ts_type))
    (name : string) (t : ts_type) :
  has_type v (TObject fields) = true ->
  In (required name t) fields ->
  exists x, get name v = Some x /\ has_type x t = true.
Proof.
  destruct v; simpl; try discriminate. intros H Hin.
  rewrite forallb_forall in H. specialize (H _ Hin). simpl in H.
  destruct (lookup name members) as [x|]; [eauto|discriminate].
Qed.

Lemma has_type_object_not_array (v : json) fields :
  has_type v (TObject fields) = true -> spec_is_sequence v = false.
Proof. destruct v; simpl; try discriminate; reflexivity. Qed.


Lemma Strategy_value (x : json) :
  has_type x Strategy = true -> is_strategy_value x.
Proof.
  intros H. unfold Strategy in H.
  destruct (has_type_field x _ "name" TString H) as (a & Ha & Hta);
    [simpl; tauto|].
  destruct (has_type_field x _ "description" TString H) as (b & Hb & Htb);
    [simpl; tauto|].
  destruct (has_type_field x _ "parameters" (TRecord TNumber) H)
    as (c & Hc & Htc); [simpl; tauto|].
  apply has_type_string in Hta as [s ->].
  apply has_type_string in Htb as [d ->].
  apply has_type_record in Htc as (ms & -> & Hms).
  repeat split; eauto.
  exists ms. split; [assumption|].
  intros k p Hin. apply has_type_number. eapply Hms; eassumption.
Qed.

Lemma string_field (x : json) fields (name : string) :
  has_type x (TObject fields) = true ->
  In (required name TString) fields ->
  exists s, get name x = Some (JString s).
Proof.
  intros H Hin. destruct (has_type_field x _ name _ H Hin) as (a & Ha & Hta).
  apply has_type_string in Hta as [s ->]. eauto.
Qed.

Lemma number_field (x : json) fields (name : string) :
  has_type x (TObject fields) = true ->
  In (required name TNumber) fields ->
  exists n, get name x = Some (JNumber n).
Proof.
  intros H Hin. destruct (has_type_field x _ name _ H Hin) as (a & Ha & Hta).
  apply has_type_number in Hta as [n ->]. eauto.
Qed.

Lemma Signal_value (x : json) :
  has_type x Signal = true -> is_signal_value x.
Proof.
  intros H. unfold Signal in H. unfold is_signal_value.
  repeat match goal with
         | |- _ /\ _ => split
         | |- exists _ : string, get _ _ = Some (JString _) =>
             eapply string_field; [exact H|simpl; tauto]
         | |- exists _ : number, get _ _ = Some (JNumber _) =>
             eapply number_field; [exact H|simpl; tauto]
         end.
  destruct (has_type_field x _ "signal_type" _ H ltac:(simpl; tauto))
    as (a & Ha & Hta).
  apply has_type_literal in Hta as (s & -> & Hin).
  exists s. split; [exact Ha|]. simpl in Hin. intuition auto.
Qed.

(** C6, as stated, fails: a value of [interface Signal] has none of the
    members [id], [strategy_name] and [interval], and the type lets its
    [confidence] leave [[0,1]]. *)
Lemma Signal_spec_shape_counterexample :
  has_type sample_signal Signal = true /\
  spec_Signal_shape sample_signal = false /\
  has_member sample_signal "id" = false /\
  has_member sample_signal "strategy_name" = false /\
  has_member sample_signal "interval" = false /\
  confidence_in_unit sample_signal = false /\
  field_names Signal <> spec_Signal_fields.
Proof. repeat split; try reflexivity. discriminate. Qed.

(** C6, amended.  Every Signal value in a response of
    [strategiesApi.getSignals] is a record declared with exactly the fields
    [signal_id], [symbol], [signal_type] (one of BUY, SELL, HOLD),
    [entry_price], [stop_loss], [take_profit], [strategy], [confidence] (a
    number) and [timestamp], and carries each of them with that type. *)
Theorem Signal_interface_shape (ps : list (string * json)) (v : json) :
  has_type v (response (strategies_getSignals ps)) = true ->
  field_names Signal =
    [ "signal_id"; "symbol"; "signal_type"; "entry_price"; "stop_loss";
      "take_profit"; "strategy"; "confidence"; "timestamp" ] /\
  field_type "signal_type" Signal = Some (TLiteral ["BUY"; "SELL"; "HOLD"]) /\
  field_type "confidence" Signal = Some TNumber /\
  field_type "interval" Signal = None /\
  exists items,
    get "signals" v = Some (JArray items) /\
    forall x, In x items -> is_signal_value x.
Proof.
  intros H. split; [reflexivity|]. split; [reflexivity|].
  split; [reflexivity|]. split; [reflexivity|].
  destruct (has_type_field v _ "signals" _ H ltac:(simpl; tauto))
    as (a & Ha & Hta).
  apply has_type_array in Hta as (items & -> & Hitems).
  exists items. split; [exact Ha|].
  intros x Hin. apply Signal_value. auto.
Qed.

Lemma Signal_interface_shape_witness :
  has_type (JObject [("signals", JArray [sample_signal]);
                     ("total", JNumber (of_Z 1))])
           (response (strategies_getSignals [])) = true /\
  is_signal_value sample_signal.
Proof.
  assert (H : has_type (JObject [("signals", JArray [sample_signal]);
                                 ("total", JNumber (of_Z 1))])
                (response (strategies_getSignals [])) = true)
    by reflexivity.
  split; [exact H|].
  destruct (Signal_interface_shape [] _ H)
    as (_ & _ & _ & _ & items & Hg & Hall).
  injection Hg as <-. apply Hall. left. reflexivity.
Defined.

(** C7, as stated, fails: a response of [strategiesApi.list] is an object,
    not a sequence. *)
Lemma list_strategies_sequence_counterexample :
  has_type sample_strategies (response strategies_list) = true /\
  spec_is_sequence sample_strategies = false.
Proof. split; reflexivity. Qed.

(** C7, amended.  Every response of [strategiesApi.list] is an object with
    the members [strategies] and [total]; [strategies] is a sequence of
    records declared with exactly the fields [name], [description] and
    [parameters], each carrying a string, a string and a map from names to
    numbers. *)
Theorem list_strategies_shape (v : json) :
  has_type v (response strategies_list) = true ->
  spec_is_sequence v = false /\
  field_names (response strategies_list) = ["strategies"; "total"] /\
  field_names Strategy = ["name"; "description"; "parameters"] /\
  (exists n, get "total" v = Some (JNumber n)) /\
  exists items,
    get "strategies" v = Some (JArray items) /\
    forall x, In x items -> is_strategy_value x.
Proof.
  intros H. split; [eapply has_type_object_not_array; exact H|].
  split; [reflexivity|]. split; [reflexivity|].
  split; [eapply number_field; [exact H|simpl; tauto]|].
  destruct (has_type_field v _ "strategies" _ H ltac:(simpl; tauto))
    as (a & Ha & Hta).
  apply has_type_array in Hta as (items & -> & Hitems).
  exists items. split; [exact Ha|].
  intros x Hin. apply Strategy_value. auto.
Qed.

Lemma list_strategies_shape_witness :
  has_type sample_strategies (response strategies_list) = true /\
  exists items,
    get "strategies" sample_strategies = Some (JArray items) /\
    forall x, In x items -> is_strategy_value x.
Proof.
  assert (H : has_type sample_strategies (response strategies_list) = true)
    by reflexivity.
  split; [exact H|].
  destruct (list_strategies_shape _ H) as (_ & _ & _ & _ & Hitems).
  exact Hitems.
Defined.

(** *** URLs built from an id *)

Lemma length_append (a b : string) :
  String.length (a ++ b) = (String.length a + String.length b)%nat.
Proof. induction a as [|c a IH]; simpl; [reflexivity|now rewrite IH]. Qed.

Lemma append_cancel_l (p a b : string) : p ++ a = p ++ b -> a = b.
Proof.
  induction p as [|c p IH]; simpl; intros H; [exact H|].
  injection H as H. auto.
Qed.

Lemma append_cancel_r (a b q : string) : a ++ q = b ++ q -> a = b.
Proof.
  revert b. induction a as [|c a IH]; intros [|d b] H; simpl in H.
  - reflexivity.
  - apply (f_equal String.length) in H. simpl in H.
    rewrite length_append in H. lia.
  - apply (f_equal String.length) in H. simpl in H.
    rewrite length_append in H. lia.
  - injection H as -> H. f_equal. auto.
Qed.

Lemma getResults_url_injective (id id' : string) :
  url (backtest_getResults id) = url (backtest_getResults id') -> id = id'.
Proof.
  unfold backtest_getResults. cbn [url]. intros H.
  apply append_cancel_l in H. apply append_cancel_r in H. exact H.
Qed.

Lemma metrics_value (m : json) :
  has_type m BacktestMetrics = true -> is_metrics_value m.
Proof.
  intros H. unfold BacktestMetrics in H. unfold is_metrics_value.
  repeat split; (eapply number_field; [exact H|simpl; tauto]).
Qed.

Lemma record_field (x : json) fields (name : string) (t : ts_type) :
  has_type x (TObject fields) = true ->
  In (required name (TRecord t)) fields ->
  exists members, get name x = Some (JObject members).
Proof.
  intros H Hin. destruct (has_type_field x _ name _ H Hin) as (a & Ha & Hta).
  apply has_type_record in Hta as (ms & -> & _). eauto.
Qed.

(** C8.  For every submitted BacktestRequest, [backtestApi.run] answers with
    a handle carrying a [backtest_id] and a [status] whose type is not the
    result's (it has no [summary], [metrics] or [rating]); the
    BacktestResult, with [summary], [metrics] (total_return, sharpe_ratio,
    max_drawdown, win_rate, total_trades) and [rating], is the response of
    a second request, [backtestApi.getResults], whose URL is built from
    that id and determines it. *)
Theorem run_backtest_returns_handle
    (request : json) (handle result : json) :
  has_type request BacktestRequest = true ->
  has_type handle (response (backtest_run request)) = true ->
  (exists id status,
      get "backtest_id" handle = Some (JString id) /\
      get "status" handle = Some (JString status) /\
      (* the handle's type is not the result's ... *)
      field_names (response (backtest_run request)) =
        ["backtest_id"; "status"; "message"] /\
      response (backtest_run request) <> BacktestResult /\
      field_type "summary" (response (backtest_run request)) = None /\
      field_type "metrics" (response (backtest_run request)) = None /\
      field_type "rating" (response (backtest_run request)) = None /\
      (* ... and the result is a second request, keyed by the id *)
      method (backtest_getResults id) = GET /\
      url (backtest_getResults id) = "/api/v1/backtest/" ++ id ++ "/results" /\
      url (backtest_getResults id) <> url (backtest_run request) /\
      (forall id', url (backtest_getResults id') = url (backtest_getResults id) ->
                   id' = id) /\
      response (backtest_getResults id) = BacktestResult /\
      (has_type result (response (backtest_getResults id)) = true ->
       (exists members, get "summary" result = Some (JObject members)) /\
       (exists m, get "metrics" result = Some m /\ is_metrics_value m) /\
       (exists members, get "rating" result = Some (JObject members)))).
Proof.
  intros _ Hh. cbn [response backtest_run] in Hh. unfold BacktestResponse in Hh.
  destruct (string_field handle _ "backtest_id" Hh ltac:(simpl; tauto))
    as [id Hid].
  destruct (string_field handle _ "status" Hh ltac:(simpl; tauto))
    as [status Hst].
  exists id, status.
  split; [exact Hid|]. split; [exact Hst|]. split; [reflexivity|].
  split; [discriminate|].
  split; [reflexivity|]. split; [reflexivity|]. split; [reflexivity|].
  split; [reflexivity|]. split; [reflexivity|].
  split.
  { cbn [url backtest_getResults backtest_run]. intros H.
    apply (append_cancel_l "/api/v1/backtest/" (id ++ "/results") "run") in H.
    destruct id as [|c1 [|c2 [|c3 [|c4 id]]]]; simpl in H; discriminate H. }
  split.
  { intros id' H. apply getResults_url_injective. exact H. }
  split; [reflexivity|].
  intros Hr. cbn [response backtest_getResults] in Hr.
  unfold BacktestResult in Hr.
  split; [eapply record_field; [exact Hr|simpl; tauto]|].
  split; [|eapply record_field; [exact Hr|simpl; tauto]].
  destruct (has_type_field result _ "metrics" _ Hr ltac:(simpl; tauto))
    as (m & Hm & Htm).
  exists m. split; [exact Hm|]. apply metrics_value. exact Htm.
Qed.

Lemma run_backtest_returns_handle_witness :
  has_type sample_backtest_request BacktestRequest = true /\
  has_type sample_backtest_handle
    (response (backtest_run sample_backtest_request)) = true /\
  exists id status,
    get "backtest_id" sample_backtest_handle = Some (JString id) /\
    get "status" sample_backtest_handle = Some (JString status) /\
    url (backtest_getResults id) = "/api/v1/backtest/bt_123456/results".
Proof.
  assert (Hq : has_type sample_backtest_request BacktestRequest = true)
    by reflexivity.
  assert (Hh : has_type sample_backtest_handle
                 (response (backtest_run sample_backtest_request)) = true)
    by reflexivity.
  split; [exact Hq|]. split; [exact Hh|].
  destruct (run_backtest_returns_handle sample_backtest_request
              sample_backtest_handle sample_backtest_result Hq Hh)
    as (id & status & Hid & Hst & _).
  exists id, status. split; [exact Hid|]. split; [exact Hst|].
  injection Hid as <-. reflexivity.
Defined.

End ApiFacts.

(* ================================================================= *)
(** ** Signals and the aggregator (specification model) *)

Module EngineFacts.
Import Engine Aggregator.

Local Open Scope Q_scope.

Lemma Qltb_lt (x y : Q) : Qltb x y = true <-> x < y.
Proof.
  unfold Qltb. rewrite negb_true_iff. split.
  - intros H. apply Qnot_le_lt. intros Hle.
    apply Qle_bool_iff in Hle. congruence.
  - intros H. destruct (Qle_bool y x) eqn:E; [|reflexivity].
    apply Qle_bool_iff in E. exfalso. exact (Qlt_not_le _ _ H E).
Qed.

Lemma valid_signal_invariant (s : Signal) :
  valid_signal s = true <-> signal_invariant s.
Proof.
  unfold valid_signal, prices_ok, confidence_ok, signal_invariant.
  rewrite !andb_true_iff, !Qle_bool_iff.
  destruct (kind s); rewrite ?andb_true_iff, ?Qltb_lt;
    intuition (try discriminate; auto).
Qed.

Lemma emit_In (s : Signal) (l : list Signal) :
  In s (emit l) <-> In s l /\ valid_signal s = true.
Proof. unfold emit. apply filter_In. Qed.

Lemma final_signals_In cfg candidates s :
  In s (final_signals cfg candidates) ->
  aggregate cfg candidates = Some s /\ valid_signal s = true.
Proof.
  unfold final_signals. destruct (aggregate cfg candidates) as [a|]; [|intros []].
  intros H. apply emit_In in H as [[<-|[]] Hv]. auto.
Qed.

(** C1.  Every signal emitted by a strategy or by the aggregator satisfies:
    BUY implies [stop_loss < entry_price < take_profit], SELL implies
    [take_profit < entry_price < stop_loss], and [confidence] lies in
    [[0,1]]; a signal violating these side conditions is rejected by the
    gate and is never among the emitted signals. *)
Theorem emitted_signals_satisfy_invariant
    (strategy : Strategy) (candles : list Candle)
    (cfg : Config) (candidates : list Signal) (s : Signal) :
  In s (strategy_signals strategy candles) \/
  In s (final_signals cfg candidates) ->
  (kind s = BUY -> stop_loss s < entry_price s /\ entry_price s < take_profit s) /\
  (kind s = SELL -> take_profit s < entry_price s /\ entry_price s < stop_loss s) /\
  (0 <= confidence s /\ confidence s <= 1) /\
  (forall r : Signal,
      ~ signal_invariant r ->
      ~ In r (strategy_signals strategy candles) /\
      ~ In r (final_signals cfg candidates) /\
      emit_one r = None).
Proof.
  intros H.
  assert (Hv : valid_signal s = true).
  { destruct H as [H|H].
    - apply emit_In in H. tauto.
    - apply final_signals_In in H. tauto. }
  apply valid_signal_invariant in Hv. destruct Hv as (Hb & Hs & Hc0 & Hc1).
  repeat split; try tauto.
  - intros Hin. apply emit_In in Hin as [_ Hr].
    apply valid_signal_invariant in Hr. contradiction.
  - intros Hin. apply final_signals_In in Hin as [_ Hr].
    apply valid_signal_invariant in Hr. contradiction.
  - unfold emit_one. destruct (valid_signal r) eqn:E; [|reflexivity].
    apply valid_signal_invariant in E. contradiction.
Qed.

(** *** The aggregator *)

Lemma group_In k candidates s :
  In s (group k candidates) <-> In s candidates /\ kind s = k.
Proof.
  unfold group. rewrite filter_In. split; intros [H1 H2]; split; auto.
  - destruct (kind s), k; simpl in H2; congruence.
  - rewrite H2. destruct k; reflexivity.
Qed.

Lemma weighted_sums_bounds (cfg : Config) (g : list Signal) :
  (forall n, 0 <= weight cfg n) ->
  (forall s, In s g -> 0 <= confidence s /\ confidence s <= 1) ->
  0 <= weighted_sum cfg g /\ weighted_sum cfg g <= total_weight cfg g.
Proof.
  intros Hw. unfold weighted_sum, total_weight.
  induction g as [|s g IH]; intros Hc; simpl.
  - split; apply Qle_refl.
  - destruct IH as [IH0 IH1]; [intros x Hx; apply Hc; now right|].
    destruct (Hc s (or_introl eq_refl)) as [Hc0 Hc1].
    specialize (Hw (strategy_name s)).
    assert (H0 : 0 <= weight cfg (strategy_name s) * confidence s)
      by (apply Qmult_le_0_compat; assumption).
    assert (H1 : weight cfg (strategy_name s) * confidence s
                 <= weight cfg (strategy_name s)) by nra.
    split; lra.
Qed.

Lemma weighted_confidence_unit (cfg : Config) (g : list Signal) :
  (forall n, 0 <= weight cfg n) ->
  (forall s, In s g -> 0 <= confidence s /\ confidence s <= 1) ->
  0 <= weighted_confidence cfg g /\ weighted_confidence cfg g <= 1.
Proof.
  intros Hw Hc. destruct (weighted_sums_bounds cfg g Hw Hc) as [H0 H1].
  unfold weighted_confidence.
  destruct (Qeq_dec (total_weight cfg g) 0) as [Hz|Hnz].
  - assert (E : weighted_sum cfg g / total_weight cfg g == 0).
    { unfold Qdiv. rewrite Hz. unfold Qinv. simpl. ring. }
    rewrite E. split; [apply Qle_refl|discriminate].
  - assert (Hpos : 0 < total_weight cfg g).
    { destruct (Qlt_le_dec 0 (total_weight cfg g)) as [Hlt|Hle];
        [assumption|].
      exfalso. apply Hnz. lra. }
    split.
    + apply Qle_shift_div_l; [exact Hpos|]. lra.
    + apply Qle_shift_div_r; [exact Hpos|]. lra.
Qed.

Lemma final_signal_valid (k : signal_type) (c : Q) (template : Signal) :
  kind template = k \/ k = HOLD ->
  valid_signal template = true ->
  0 <= c -> c <= 1 ->
  valid_signal (final_signal k c template) = true.
Proof.
  intros Hk Hv H0 H1. apply valid_signal_invariant.
  apply valid_signal_invariant in Hv. destruct Hv as (Hb & Hs & _).
  unfold signal_invariant, final_signal; simpl.
  destruct Hk as [<-| ->]; repeat split; try assumption;
    try discriminate; tauto.
Qed.

Lemma winner_valid (cfg : Config) (k : signal_type) (candidates : list Signal)
    (s : Signal) :
  (forall n, 0 <= weight cfg n) ->
  (forall x, In x candidates -> valid_signal x = true) ->
  winner cfg k candidates = Some s ->
  valid_signal s = true /\ kind s = k.
Proof.
  intros Hw Hall. unfold winner.
  destruct (group k candidates) as [|template g] eqn:Hg; [discriminate|].
  intros H. injection H as <-.
  assert (Hin : In template (group k candidates)) by (rewrite Hg; now left).
  apply group_In in Hin as [Hin Hk].
  assert (Hconf : 0 <= weighted_confidence cfg (template :: g) /\
                  weighted_confidence cfg (template :: g) <= 1).
  { apply weighted_confidence_unit; [exact Hw|].
    intros x Hx. rewrite <- Hg in Hx. apply group_In in Hx as [Hx _].
    specialize (Hall x Hx). apply valid_signal_invariant in Hall.
    unfold signal_invariant in Hall. tauto. }
  split; [|reflexivity].
  apply final_signal_valid; auto; tauto.
Qed.

(** With non-negative weights the aggregator's decision over emitted
    signals is itself valid: the gate never drops it. *)
Lemma aggregate_valid (cfg : Config) (candidates : list Signal) (s : Signal) :
  (forall n, 0 <= weight cfg n) ->
  (forall x, In x candidates -> valid_signal x = true) ->
  aggregate cfg candidates = Some s ->
  valid_signal s = true.
Proof.
  intros Hw Hall. unfold aggregate.
  destruct (conflict cfg candidates).
  - destruct candidates as [|template rest]; [discriminate|].
    intros H. injection H as <-.
    apply final_signal_valid; [now right| |apply Qle_refl|discriminate].
    apply Hall. now left.
  - destruct (dominates BUY candidates);
      [intros H; eapply winner_valid; eauto|].
    destruct (dominates SELL candidates);
      [intros H; eapply winner_valid; eauto|].
    destruct (dominates HOLD candidates);
      [intros H; eapply winner_valid; eauto|discriminate].
Qed.

Lemma conflict_true (cfg : Config) (candidates : list Signal) :
  group BUY candidates <> [] ->
  group SELL candidates <> [] ->
  Qabs (summed_confidence (group BUY candidates) -
        summed_confidence (group SELL candidates)) <= margin cfg ->
  conflict cfg candidates = true.
Proof.
  intros Hb Hs Hm. unfold conflict.
  apply Qle_bool_iff in Hm. rewrite Hm.
  destruct (group BUY candidates); [contradiction|].
  destruct (group SELL candidates); [contradiction|]. reflexivity.
Qed.

(** C3.  For every set of candidate signals of one evaluation the
    aggregator emits at most one final signal; and whenever the BUY group
    and the SELL group are both non-empty with summed confidences within
    the configured margin of each other, that final signal exists and is
    HOLD. *)
Theorem aggregate_one_signal_conflict_holds
    (cfg : Config) (candidates : list Signal) :
  (List.length (final_signals cfg candidates) <= 1)%nat /\
  (group BUY candidates <> [] ->
   group SELL candidates <> [] ->
   Qabs (summed_confidence (group BUY candidates) -
         summed_confidence (group SELL candidates)) <= margin cfg ->
   exists s : Signal,
     aggregate cfg candidates = Some s /\
     final_signals cfg candidates = [s] /\
     kind s = HOLD).
Proof.
  split.
  - unfold final_signals, emit.
    destruct (aggregate cfg candidates) as [s|]; simpl; [|lia].
    destruct (valid_signal s); simpl; lia.
  - intros Hb Hs Hm. pose proof (conflict_true cfg candidates Hb Hs Hm) as Hc.
    unfold final_signals, aggregate. rewrite Hc.
    destruct candidates as [|template rest]; [now elim Hb|].
    eexists. split; [reflexivity|]. split; [|reflexivity].
    unfold emit. simpl. reflexivity.
Qed.

Lemma emitted_signals_satisfy_invariant_witness :
  In sample_buy (strategy_signals sample_strategy []) /\
  (stop_loss sample_buy < entry_price sample_buy /\
   entry_price sample_buy < take_profit sample_buy) /\
  ~ In sample_bad_buy (strategy_signals sample_strategy []).
Proof.
  assert (Hin : In sample_buy (strategy_signals sample_strategy []))
    by (left; reflexivity).
  split; [exact Hin|].
  destruct (emitted_signals_satisfy_invariant sample_strategy []
              default_config [] sample_buy (or_introl Hin))
    as (Hbuy & _ & _ & Hrej).
  split; [exact (Hbuy eq_refl)|].
  apply (Hrej sample_bad_buy).
  intros (Hb & _). destruct (Hb eq_refl) as [Hlt _].
  revert Hlt. unfold Qlt. simpl. lia.
Defined.

Lemma aggregate_one_signal_conflict_holds_witness :
  group BUY [sample_buy; sample_sell] <> [] /\
  group SELL [sample_buy; sample_sell] <> [] /\
  exists s : Signal,
    final_signals default_config [sample_buy; sample_sell] = [s] /\
    kind s = HOLD.
Proof.
  assert (Hb : group BUY [sample_buy; sample_sell] <> []) by discriminate.
  assert (Hs : group SELL [sample_buy; sample_sell] <> []) by discriminate.
  split; [exact Hb|]. split; [exact Hs|].
  destruct (aggregate_one_signal_conflict_holds default_config
              [sample_buy; sample_sell]) as [_ Hhold].
  destruct (Hhold Hb Hs) as (s & _ & Hf & Hk).
  - unfold Qle. simpl. lia.
  - exists s. split; assumption.
Defined.

End EngineFacts.

(* ================================================================= *)
(** ** The signal store (specification model) *)

Module SignalStoreFacts.
Import Engine SignalStore.

Local Open Scope Z_scope.

Lemma In_firstn {A : Type} (n : nat) (l : list A) (x : A) :
  In x (firstn n l) -> In x l.
Proof.
  intros H. rewrite <- (firstn_skipn n l). apply in_or_app. now left.
Qed.

Lemma filter_all {A : Type} (f : A -> bool) (l : list A) :
  (forall x, In x l -> f x = true) -> filter f l = l.
Proof.
  induction l as [|a l IH]; intros H; simpl; [reflexivity|].
  rewrite (H a (or_introl eq_refl)). f_equal. apply IH.
  intros x Hx. apply H. now right.
Qed.

Lemma filter_none {A : Type} (f : A -> bool) (l : list A) :
  (forall x, In x l -> f x = false) -> filter f l = [].
Proof.
  induction l as [|a l IH]; intros H; simpl; [reflexivity|].
  rewrite (H a (or_introl eq_refl)). apply IH.
  intros x Hx. apply H. now right.
Qed.

Lemma filter_length_le {A : Type} (f : A -> bool) (l : list A) :
  (List.length (filter f l) <= List.length l)%nat.
Proof. induction l as [|a l IH]; simpl; [lia|]. destruct (f a); simpl; lia. Qed.

Lemma firstn_app_firstn {A : Type} (n : nat) (a b : list A) :
  firstn n (a ++ firstn n b) = firstn n (a ++ b).
Proof.
  rewrite !firstn_app, firstn_firstn. f_equal. f_equal. lia.
Qed.

Lemma live_iff (now : Z) (s : Signal) :
  live now s = true <-> now - timestamp s <= TTL.
Proof.
  unfold live, expired. rewrite negb_true_iff, Z.ltb_ge. reflexivity.
Qed.

Lemma cleanup_In (now : Z) (st : store) (x : Signal) :
  In x (cleanup now st) -> In x st /\ now - timestamp x <= TTL.
Proof.
  unfold cleanup. intros H. apply In_firstn in H.
  apply filter_In in H as [Hin Hl]. split; [exact Hin|].
  apply live_iff. exact Hl.
Qed.

Lemma cleanup_length (now : Z) (st : store) :
  (List.length (cleanup now st) <= CAP)%nat.
Proof. unfold cleanup. apply firstn_le_length. Qed.

Lemma cleanup_live (now : Z) (st : store) :
  (forall x, In x st -> now - timestamp x <= TTL) ->
  cleanup now st = firstn CAP st.
Proof.
  intros H. unfold cleanup. rewrite filter_all; [reflexivity|].
  intros x Hx. apply live_iff. auto.
Qed.

Lemma cleanup_stale (now : Z) (st : store) :
  (forall x, In x st -> TTL < now - timestamp x) ->
  cleanup now st = [].
Proof.
  intros H. unfold cleanup. rewrite filter_none; [apply firstn_nil|].
  intros x Hx. unfold live, expired. apply negb_false_iff, Z.ltb_lt. auto.
Qed.

Lemma query_In (now : Z) sym strat limit (st : store) (x : Signal) :
  In x (query now sym strat limit st) ->
  In x st /\ now - timestamp x <= TTL.
Proof.
  unfold query. intros H. apply In_firstn in H.
  apply filter_In in H as [H _]. apply cleanup_In. exact H.
Qed.

Lemma query_length (now : Z) sym strat limit (st : store) :
  (List.length (query now sym strat limit st) <= CAP)%nat.
Proof.
  unfold query. rewrite length_firstn.
  pose proof (filter_length_le (matches sym strat) (cleanup now st)).
  pose proof (cleanup_length now st). lia.
Qed.

Lemma appends_cons (w : write) (ws : list write) (st : store) :
  appends (w :: ws) st = appends ws (append (fst w) (snd w) st).
Proof. reflexivity. Qed.

Lemma appends_In (ws : list write) :
  forall (st : store) (x : Signal),
    In x (appends ws st) -> In x st \/ In x (map snd ws).
Proof.
  induction ws as [|w ws IH]; intros st x H; [now left|].
  rewrite appends_cons in H.
  apply IH in H as [H|H]; [|right; right; exact H].
  apply cleanup_In in H as [[<-|H] _]; [right; left; reflexivity|now left].
Qed.

(** While nothing expires, appending keeps the [CAP] newest entries. *)
Lemma appends_live (ws : list write) :
  forall st : store,
    (List.length st <= CAP)%nat ->
    (forall x w, In x (map snd ws ++ st) -> In w ws ->
                 fst w - timestamp x <= TTL) ->
    appends ws st = firstn CAP (rev (map snd ws) ++ st).
Proof.
  induction ws as [|[t s] ws IH]; intros st Hlen Hlive.
  - symmetry. apply firstn_all2. exact Hlen.
  - rewrite appends_cons. cbn [fst snd map rev]. unfold append.
    rewrite cleanup_live.
    + rewrite IH.
      * rewrite firstn_app_firstn, <- app_assoc. reflexivity.
      * apply firstn_le_length.
      * intros x w Hx Hw. apply (Hlive x w); [|now right].
        apply in_app_or in Hx as [Hx|Hx].
        -- cbn [map snd]. right. apply in_or_app. now left.
        -- apply In_firstn in Hx. destruct Hx as [<-|Hx]; [now left|].
           cbn [map snd]. right. apply in_or_app. now right.
    + intros x Hx. apply (Hlive x (t, s)); [|now left].
      destruct Hx as [<-|Hx]; [now left|].
      cbn [map snd]. right. apply in_or_app. now right.
Qed.

(** C2.  For every sequence of appends: every query returns at most 500
    entries, none of them older than the TTL at the time of the query, and
    after each append the stored log itself is within the cap and free of
    expired entries; after 600 appends during which nothing expires,
    exactly the 500 most recent signals remain, newest first; and once time
    has advanced past the TTL of every write, the next query returns
    nothing. *)
Theorem store_retention
    (ws : list write) (now : Z) (sym strat : option string) (limit : nat) :
  let st := appends ws empty in
  ((List.length (query now sym strat limit st) <= 500)%nat /\
   forall s, In s (query now sym strat limit st) ->
             now - timestamp s <= TTL) /\
  (forall t s,
      append t s st = firstn 500 (filter (live t) (s :: st)) /\
      (List.length (append t s st) <= 500)%nat /\
      forall x, In x (append t s st) -> t - timestamp x <= TTL) /\
  (List.length ws = 600%nat ->
   (forall w w', In w ws -> In w' ws -> fst w' - timestamp (snd w) <= TTL) ->
   st = firstn 500 (rev (map snd ws)) /\
   List.length st = 500%nat /\
   ((forall w, In w ws -> now - timestamp (snd w) <= TTL) ->
    observe now st = firstn 500 (rev (map snd ws)))) /\
  (forall last,
      (forall w, In w ws -> timestamp (snd w) <= last) ->
      last + TTL < now ->
      observe now st = [] /\ query now sym strat limit st = []).
Proof.
  intros st. split; [|split; [|split]].
  - split; [apply query_length|]. intros s Hs.
    apply query_In in Hs. tauto.
  - intros t s. split; [reflexivity|]. split; [apply cleanup_length|].
    intros x Hx. apply cleanup_In in Hx. tauto.
  - intros Hlen Hlive.
    assert (Hst : st = firstn 500 (rev (map snd ws))).
    { unfold st. rewrite appends_live.
      - rewrite app_nil_r. reflexivity.
      - apply Nat.le_0_l.
      - intros x w Hx Hw. rewrite app_nil_r in Hx.
        apply in_map_iff in Hx as (w0 & <- & Hw0). auto. }
    split; [exact Hst|]. split.
    + rewrite Hst, length_firstn, length_rev, length_map.
      unfold write in Hlen. rewrite Hlen. reflexivity.
    + intros Hnow. unfold observe, query.
      rewrite filter_all by reflexivity.
      rewrite cleanup_live.
      * rewrite Hst. change 500%nat with CAP. rewrite !firstn_firstn.
        rewrite !Nat.min_id. reflexivity.
      * intros x Hx. unfold st in Hx. apply appends_In in Hx as [[]|Hx].
        apply in_map_iff in Hx as (w0 & <- & Hw0). auto.
  - intros last Hts Hnow.
    assert (Hc : cleanup now st = []).
    { apply cleanup_stale. intros x Hx. unfold st in Hx.
      apply appends_In in Hx as [[]|Hx].
      apply in_map_iff in Hx as (w0 & <- & Hw0).
      specialize (Hts w0 Hw0). lia. }
    unfold observe, query. rewrite Hc. cbn [filter]. rewrite !firstn_nil. auto.
Qed.

Lemma store_retention_witness :
  List.length sample_writes = 600%nat /\
  never_expired sample_writes = true /\
  appends sample_writes empty =
    firstn 500 (rev (map snd sample_writes)) /\
  List.length (appends sample_writes empty) = 500%nat /\
  observe 90000 (appends sample_writes empty) = [].
Proof.
  assert (Hlen : List.length sample_writes = 600%nat) by reflexivity.
  assert (Hlive : never_expired sample_writes = true)
    by (vm_compute; reflexivity).
  split; [exact Hlen|]. split; [exact Hlive|].
  destruct (store_retention sample_writes 90000 None None 10)
    as (_ & _ & H600 & Hstale).
  destruct H600 as (Hst & Hl & _); [exact Hlen| |].
  - intros w w' Hw Hw'. unfold never_expired in Hlive.
    rewrite forallb_forall in Hlive. specialize (Hlive w Hw).
    rewrite forallb_forall in Hlive. specialize (Hlive w' Hw').
    apply Z.leb_le. exact Hlive.
  - split; [exact Hst|]. split; [exact Hl|].
    destruct (Hstale 599) as [Hobs _]; [|reflexivity|exact Hobs].
    intros w Hw. unfold sample_writes in Hw.
    apply in_map_iff in Hw as (t & <- & Ht). apply in_seq in Ht.
    cbn [snd timestamp signal_at]. lia.
Defined.

End SignalStoreFacts.

(* ================================================================= *)
(** ** The backtest engine (specification model) *)

Module BacktestFacts.
Import Engine Backtest.

Local Open Scope Q_scope.

Section WithStrategy.
Variable strategy : Strategy.
Variable position_size : Q -> Signal -> Q.

Local Abbreviation step := (step strategy position_size).
Local Abbreviation replay := (replay strategy position_size).

Lemma settle_subset (last : bool) (i : nat) (c : Candle) (ts : list OpenTrade) :
  (forall t, In t (fst (settle last i c ts)) -> In t ts) /\
  (forall ct, In ct (snd (settle last i c ts)) -> In (opened ct) ts).
Proof.
  induction ts as [|t ts [IHs IHc]]; simpl; [tauto|].
  destruct (settle last i c ts) as [still closed]. simpl in *.
  destruct (exit_on c t) as [px|]; [|destruct last]; simpl; split.
  - intros x Hx. right. auto.
  - intros x [<-|Hx]; [left; reflexivity|right; auto].
  - intros x Hx. right. auto.
  - intros x [<-|Hx]; [left; reflexivity|right; auto].
  - intros x [<-|Hx]; [left; reflexivity|right; auto].
  - intros x Hx. right. auto.
Qed.

Lemma replay_cons (seen : list Candle) (c : Candle) (rest : list Candle)
    (st : State) :
  replay seen (c :: rest) st =
  replay (seen ++ [c]) rest
    (step (seen ++ [c]) c (List.length seen)
          match rest with [] => true | _ => false end st).
Proof. reflexivity. Qed.

Lemma step_equity history c i last st :
  equity_curve (step history c i last st) =
  equity_curve st ++ [(candle_time c, capital (step history c i last st))].
Proof.
  unfold Backtest.step.
  destruct (settle last i c _) as [still closed]. reflexivity.
Qed.

Lemma replay_equity_times (rest : list Candle) :
  forall seen st,
    map fst (equity_curve (replay seen rest st)) =
    map fst (equity_curve st) ++ map candle_time rest.
Proof.
  induction rest as [|c rest IH]; intros seen st.
  - simpl. now rewrite app_nil_r.
  - rewrite replay_cons, IH, step_equity, map_app, <- app_assoc. reflexivity.
Qed.

Lemma replay_equity_prefix (rest : list Candle) :
  forall seen st,
    exists tail, equity_curve (replay seen rest st) = equity_curve st ++ tail.
Proof.
  induction rest as [|c rest IH]; intros seen st.
  - exists []. simpl. now rewrite app_nil_r.
  - rewrite replay_cons.
    destruct (IH (seen ++ [c])
                 (step (seen ++ [c]) c (List.length seen)
                       match rest with [] => true | _ => false end st))
      as [tail Ht].
    rewrite Ht, step_equity, <- app_assoc. eauto.
Qed.

Lemma step_init_capital (history : list Candle) (c : Candle) (i : nat)
    (last : bool) (initial : Q) :
  capital (step history c i last (init initial)) = initial.
Proof. reflexivity. Qed.

Lemma first_equity_value (initial : Q) (candles : list Candle) (p : Z * Q) :
  hd_error (equity_curve (replay [] candles (init initial))) = Some p ->
  snd p = initial.
Proof.
  destruct candles as [|c rest]; [discriminate|].
  rewrite replay_cons.
  destruct (replay_equity_prefix rest ([] ++ [c])
              (step ([] ++ [c]) c (List.length (@nil Candle))
                    match rest with [] => true | _ => false end (init initial)))
    as [tail Ht].
  rewrite Ht, step_equity, step_init_capital.
  intros H. injection H as <-. reflexivity.
Qed.

(** *** No look-ahead *)

Lemma firstn_snoc (seen : list Candle) (c : Candle) (rest : list Candle) :
  firstn (S (List.length seen)) (seen ++ c :: rest) = seen ++ [c].
Proof.
  replace (seen ++ c :: rest) with ((seen ++ [c]) ++ rest)
    by (rewrite <- app_assoc; reflexivity).
  replace (S (List.length seen)) with (List.length (seen ++ [c]) + 0)%nat
    by (rewrite length_app; simpl; lia).
  rewrite firstn_app_2. simpl. now rewrite app_nil_r.
Qed.

Lemma step_well_entered (seen : list Candle) (c : Candle) (rest : list Candle)
    (last : bool) (st : State) :
  well_entered strategy (seen ++ c :: rest) (List.length seen) st ->
  well_entered strategy (seen ++ c :: rest) (S (List.length seen))
    (step (seen ++ [c]) c (List.length seen) last st).
Proof.
  intros (Hp & Ho & Hl).
  assert (Hentered :
    forall t, In t (positions st ++
                    map (open_trade position_size (capital st)
                                    (List.length seen) c) (pending st)) ->
              entered_at_next_open strategy (seen ++ c :: rest) t).
  { intros t Ht. apply in_app_or in Ht as [Ht|Ht]; [auto|].
    apply in_map_iff in Ht as (p & <- & Hin).
    destruct (Hp p Hin) as [Hidx Hsig].
    unfold entered_at_next_open, open_trade;
      cbn [signal_index entry_index entry_time signal].
    split; [symmetry; exact Hidx|]. split; [exact Hsig|].
    assert (Hlt : (fst p < List.length seen)%nat) by lia.
    destruct (nth_error seen (fst p)) as [cT|] eqn:HT;
      [|apply nth_error_None in HT; lia].
    exists cT, c. split; [rewrite nth_error_app1; assumption|].
    split; [|reflexivity].
    rewrite Hidx, nth_error_app2, Nat.sub_diag; [reflexivity|lia]. }
  unfold Backtest.step.
  pose proof (settle_subset last (List.length seen) c
                (positions st ++
                 map (open_trade position_size (capital st)
                                 (List.length seen) c) (pending st)))
    as [Hs Hc].
  destruct (settle last (List.length seen) c _) as [still closed].
  cbn [fst snd] in Hs, Hc. unfold well_entered;
    cbn [pending positions ledger].
  split; [|split].
  - intros p Hin. apply in_map_iff in Hin as (s & <- & Hin). cbn [fst snd].
    split; [reflexivity|].
    apply filter_In in Hin as [Hin _].
    rewrite firstn_snoc. exact Hin.
  - intros t Ht. auto.
  - intros ct Hct. apply in_app_or in Hct as [Hct|Hct]; [|auto].
    apply in_rev in Hct. auto.
Qed.

Lemma replay_well_entered (rest : list Candle) :
  forall seen st,
    well_entered strategy (seen ++ rest) (List.length seen) st ->
    well_entered strategy (seen ++ rest) (List.length (seen ++ rest))
      (replay seen rest st).
Proof.
  induction rest as [|c rest IH]; intros seen st H.
  - rewrite app_nil_r in *. exact H.
  - rewrite replay_cons.
    replace (seen ++ c :: rest) with ((seen ++ [c]) ++ rest) in *
      by (rewrite <- app_assoc; reflexivity).
    apply IH. rewrite length_app. simpl. rewrite Nat.add_1_r.
    rewrite <- app_assoc. simpl.
    apply step_well_entered. rewrite <- app_assoc in H. exact H.
Qed.

(** *** A strategy that never fires *)

Lemma step_quiet (initial : Q) (seen : list Candle) (c : Candle) (last : bool)
    (st : State) :
  strategy_signals strategy (seen ++ [c]) = [] ->
  quiet initial seen st ->
  quiet initial (seen ++ [c])
    (step (seen ++ [c]) c (List.length seen) last st).
Proof.
  intros Hsil (Hp & Ho & Hl & Hc & He).
  unfold Backtest.step. rewrite Hp, Ho, Hl, Hc, He, Hsil.
  cbn [map app settle filter fold_left rev].
  unfold quiet; cbn [pending positions ledger capital equity_curve].
  repeat split. rewrite map_app. reflexivity.
Qed.

Lemma replay_quiet (initial : Q) (rest : list Candle) :
  forall seen st,
    (forall n, strategy_signals strategy (firstn n (seen ++ rest)) = []) ->
    quiet initial seen st ->
    quiet initial (seen ++ rest) (replay seen rest st).
Proof.
  induction rest as [|c rest IH]; intros seen st Hsil H.
  - rewrite app_nil_r. exact H.
  - rewrite replay_cons.
    replace (seen ++ c :: rest) with ((seen ++ [c]) ++ rest) in *
      by (rewrite <- app_assoc; reflexivity).
    apply IH; [exact Hsil|].
    apply step_quiet; [|exact H].
    specialize (Hsil (S (List.length seen))).
    rewrite <- app_assoc in Hsil. cbn [app] in Hsil.
    rewrite firstn_snoc in Hsil. exact Hsil.
Qed.

End WithStrategy.

Lemma ascending_adjacent (l : list Candle) :
  forall (i : nat) (a b : Candle),
    ascending (map candle_time l) ->
    nth_error l i = Some a -> nth_error l (S i) = Some b ->
    (candle_time a < candle_time b)%Z.
Proof.
  unfold ascending.
  induction l as [|x l IH]; intros i a b Hasc Ha Hb.
  - destruct i; discriminate.
  - cbn [map] in Hasc. apply StronglySorted_inv in Hasc as [Hl Hx].
    destruct i as [|i].
    + cbn [nth_error] in Ha, Hb. injection Ha as <-.
      destruct l as [|y l]; [discriminate|].
      cbn [nth_error] in Hb. injection Hb as <-.
      cbn [map] in Hx. apply Forall_inv in Hx. exact Hx.
    + cbn [nth_error] in Ha. apply (IH i a b Hl Ha Hb).
Qed.

Lemma window_ascending (s e : Z) (candles : list Candle) :
  ascending (map candle_time candles) ->
  ascending (map candle_time (window s e candles)).
Proof.
  unfold ascending, window.
  induction candles as [|c l IH]; intros Hasc; [constructor|].
  cbn [map] in Hasc. apply StronglySorted_inv in Hasc as [Hl Hc].
  cbn [filter].
  destruct ((s <=? candle_time c)%Z && (candle_time c <=? e)%Z);
    [|exact (IH Hl)].
  cbn [map]. constructor; [exact (IH Hl)|].
  rewrite Forall_forall in *. intros t Ht.
  apply in_map_iff in Ht as (x & <- & Hx).
  apply filter_In in Hx as [Hx _].
  apply Hc. apply in_map. exact Hx.
Qed.

(** C4.  In every backtest run over a candle table in time order, every
    trade of the ledger simulates a signal that the strategy emitted from
    the window's candles up to some candle [T] only, and was entered at
    candle [T+1], at that candle's time, which is later than candle [T]'s:
    never on the candle whose close triggered the signal. *)
Theorem backtest_enters_at_next_open
    (strategy : Strategy) (position_size : Q -> Signal -> Q)
    (request : BacktestRequest) (candles : list Candle) (ct : ClosedTrade) :
  let w := window (start_date request) (end_date request) candles in
  ascending (map candle_time candles) ->
  In ct (trades (run_backtest strategy position_size request candles)) ->
  entry_index (opened ct) = S (signal_index (opened ct)) /\
  entry_index (opened ct) <> signal_index (opened ct) /\
  In (signal (opened ct))
     (strategy_signals strategy (firstn (S (signal_index (opened ct))) w)) /\
  exists cT cE : Candle,
    nth_error w (signal_index (opened ct)) = Some cT /\
    nth_error w (S (signal_index (opened ct))) = Some cE /\
    entry_time (opened ct) = candle_time cE /\
    (candle_time cT < entry_time (opened ct))%Z.
Proof.
  intros w Hasc Hin. unfold run_backtest, backtest in Hin.
  cbn [trades] in Hin. fold w in Hin.
  assert (H0 : well_entered strategy ([] ++ w)
                 (List.length (@nil Candle))
                 (init (initial_capital request))).
  { split; [|split]; intros x Hx; destruct Hx. }
  pose proof (replay_well_entered strategy position_size w []
                (init (initial_capital request)) H0) as (_ & _ & Hl).
  cbn [app] in Hl.
  destruct (Hl ct Hin) as (Hidx & Hsig & cT & cE & HT & HE & Htime).
  split; [exact Hidx|]. split; [lia|]. split; [exact Hsig|].
  exists cT, cE. repeat split; try assumption.
  rewrite Htime. eapply ascending_adjacent; [|eassumption|eassumption].
  apply window_ascending. exact Hasc.
Qed.

(** C5.  A backtest run over a strategy that emits no signal on any candle
    of the window (with a non-zero initial capital) has [total_trades = 0],
    [total_return = 0] and an equity curve constant at [initial_capital];
    and in every backtest run the equity curve has one point per candle of
    the window, in the candles' ascending time order, and its first value
    is [initial_capital]. *)
Theorem backtest_equity_curve_flat
    (strategy : Strategy) (position_size : Q -> Signal -> Q)
    (request : BacktestRequest) (candles : list Candle) :
  let w := window (start_date request) (end_date request) candles in
  let r := run_backtest strategy position_size request candles in
  ((forall n, strategy_signals strategy (firstn n w) = []) ->
   ~ initial_capital request == 0 ->
   total_trades r = 0%nat /\
   total_return r == 0 /\
   result_equity_curve r =
     map (fun c => (candle_time c, initial_capital request)) w) /\
  map fst (result_equity_curve r) = map candle_time w /\
  (ascending (map candle_time candles) ->
   ascending (map fst (result_equity_curve r))) /\
  (forall p, hd_error (result_equity_curve r) = Some p ->
             snd p = initial_capital request).
Proof.
  intros w r. unfold r, run_backtest, backtest. fold w.
  cbn [total_trades total_return result_equity_curve].
  assert (Htimes :
    map fst (equity_curve (replay strategy position_size [] w
                             (init (initial_capital request))))
    = map candle_time w).
  { rewrite replay_equity_times. reflexivity. }
  split; [|split; [exact Htimes|split]].
  - intros Hsil Hnz.
    assert (Hq : quiet (initial_capital request) ([] ++ w)
                   (replay strategy position_size [] w
                      (init (initial_capital request)))).
    { apply replay_quiet; [exact Hsil|]. repeat split. }
    destruct Hq as (_ & _ & Hl & Hc & He).
    rewrite Hl, Hc, He. split; [reflexivity|]. split; [|reflexivity].
    field. exact Hnz.
  - intros Hasc. rewrite Htimes. apply window_ascending. exact Hasc.
  - apply first_equity_value.
Qed.

Lemma backtest_enters_at_next_open_witness :
  ascending (map candle_time sample_candles) /\
  exists ct : ClosedTrade,
    In ct (trades (run_backtest enter_once one_unit sample_request
                                sample_candles)) /\
    signal_index (opened ct) = 0%nat /\
    entry_index (opened ct) = 1%nat /\
    entry_time (opened ct) = 3600%Z.
Proof.
  assert (Hasc : ascending (map candle_time sample_candles)).
  { repeat constructor. }
  split; [exact Hasc|].
  assert (Hex : exists ct : ClosedTrade,
             In ct (trades (run_backtest enter_once one_unit sample_request
                                         sample_candles))
             /\ signal_index (opened ct) = 0%nat).
  { eexists. split; [left; reflexivity|reflexivity]. }
  destruct Hex as (ct & Hin & Hsig).
  exists ct. split; [exact Hin|]. split; [exact Hsig|].
  destruct (backtest_enters_at_next_open enter_once one_unit sample_request
              sample_candles ct Hasc Hin)
    as (Hidx & _ & _ & cT & cE & _ & HE & Htime & _).
  rewrite Hidx, Hsig. split; [reflexivity|].
  rewrite Htime. rewrite Hsig in HE. injection HE as <-. reflexivity.
Defined.

Lemma backtest_equity_curve_flat_witness :
  (forall n, strategy_signals silent
               (firstn n (window 0 7200 sample_candles)) = []) /\
  ~ initial_capital sample_request == 0 /\
  total_trades (run_backtest silent one_unit sample_request sample_candles)
    = 0%nat /\
  result_equity_curve
    (run_backtest silent one_unit sample_request sample_candles) =
    [(0%Z, 10000); (3600%Z, 10000); (7200%Z, 10000)].
Proof.
  assert (Hsil : forall n,
             strategy_signals silent
               (firstn n (window 0 7200 sample_candles)) = [])
    by (intros n; reflexivity).
  assert (Hnz : ~ initial_capital sample_request == 0) by discriminate.
  split; [exact Hsil|]. split; [exact Hnz|].
  destruct (backtest_equity_curve_flat silent one_unit sample_request
              sample_candles) as (Hflat & _).
  destruct (Hflat Hsil Hnz) as (Ht & _ & Hc).
  split; [exact Ht|]. rewrite Hc. reflexivity.
Defined.

End BacktestFacts.

(* ================================================================= *)
(** ** The client-side stores *)

Module StoresFacts.
Import Stores.

Lemma includes_In (symbols : list string) (symbol : string) :
  includes symbols symbol = true <-> In symbol symbols.
Proof.
  unfold includes. rewrite existsb_exists. split.
  - intros (x & Hin & Heq). apply String.eqb_eq in Heq. now subst.
  - intros Hin. exists symbol. split; [exact Hin|apply String.eqb_refl].
Qed.

Lemma addFavorite_NoDup (symbol : string) (symbols : list string) :
  NoDup symbols -> NoDup (addFavorite symbol symbols).
Proof.
  intros Hnd. unfold addFavorite.
  destruct (includes symbols symbol) eqn:Hin; [exact Hnd|].
  apply NoDup_app; [exact Hnd|repeat constructor; intros []|].
  intros x Hx [<-|[]].
  apply includes_In in Hx. congruence.
Qed.

Lemma removeFavorite_NoDup (symbol : string) (symbols : list string) :
  NoDup symbols -> NoDup (removeFavorite symbol symbols).
Proof. intros Hnd. apply NoDup_filter. exact Hnd. Qed.

(** The favourites never hold a symbol twice, whatever is added and removed;
    after [addFavorite(s)] exactly [s] and the previous favourites are
    favourites, and after [removeFavorite(s)] exactly the previous
    favourites other than [s]. *)
Theorem favorites_are_a_set (actions : list favorite_action)
    (symbol other : string) :
  let symbols := fold_left favorite_step actions initial_favorites in
  NoDup symbols /\
  isFavorite other (addFavorite symbol symbols) =
    (String.eqb other symbol || isFavorite other symbols) /\
  isFavorite other (removeFavorite symbol symbols) =
    (negb (String.eqb other symbol) && isFavorite other symbols).
Proof.
  intros symbols. split; [|split].
  - unfold symbols.
    assert (H0 : NoDup initial_favorites).
    { repeat constructor; simpl; intuition discriminate. }
    revert H0. generalize initial_favorites.
    induction actions as [|a actions IH]; intros l Hl; [exact Hl|].
    simpl. apply IH. destruct a; simpl;
      [apply addFavorite_NoDup|apply removeFavorite_NoDup]; exact Hl.
  - unfold isFavorite, addFavorite.
    destruct (includes symbols symbol) eqn:Hin.
    + destruct (String.eqb other symbol) eqn:He; [|reflexivity].
      apply String.eqb_eq in He. subst other. exact Hin.
    + unfold includes. rewrite existsb_app. simpl.
      rewrite orb_false_r. apply orb_comm.
  - unfold isFavorite, removeFavorite. apply eq_true_iff_eq.
    rewrite andb_true_iff, negb_true_iff, !includes_In, filter_In.
    rewrite negb_true_iff. tauto.
Qed.

(** Whatever the sequence of [login], [logout] and [setMustChange], the
    store is authenticated exactly when it holds a token and a user name;
    and [logout] restores the initial state. *)
Theorem auth_token_iff_authenticated (actions : list auth_action) :
  let s := fold_left auth_step actions initial_auth in
  isAuthenticated s = is_some (token s) /\
  isAuthenticated s = is_some (username s) /\
  logout s = initial_auth.
Proof.
  intros s. unfold s.
  assert (Hinv : forall s0,
             isAuthenticated s0 = is_some (token s0) /\
             isAuthenticated s0 = is_some (username s0) ->
             isAuthenticated (fold_left auth_step actions s0) =
               is_some (token (fold_left auth_step actions s0)) /\
             isAuthenticated (fold_left auth_step actions s0) =
               is_some (username (fold_left auth_step actions s0))).
  { induction actions as [|a actions IH]; intros s0 H0; [exact H0|].
    simpl. apply IH. destruct a; simpl; tauto. }
  destruct (Hinv initial_auth (conj eq_refl eq_refl)) as [Ht Hu].
  split; [exact Ht|]. split; [exact Hu|]. reflexivity.
Qed.

End StoresFacts.

(* ================================================================= *)
(** ** Coloured numbers *)

Module WidgetsFacts.
Import JsNumber Format Widgets.
Local Open Scope string_scope.

Lemma SFcompare_refl (x : number) :
  SFcompare x x = Some Eq \/ SFcompare x x = None.
Proof.
  destruct x as [s|s| |s m e]; simpl; try (now left); try (now right).
  - destruct s; now left.
  - left. rewrite Z.compare_refl.
    change (PosDef.Pos.compare_cont Eq m m) with (Pos.compare m m).
    rewrite Pos.compare_refl. destruct s; reflexivity.
Qed.

Lemma ltb_irrefl (x : number) : ltb x x = false.
Proof.
  unfold ltb, SFltb. destruct (SFcompare_refl x) as [-> | ->]; reflexivity.
Qed.

Lemma ltb_asym (x y : number) : ltb x y = true -> ltb y x = false.
Proof.
  unfold ltb, SFltb. rewrite (FormatFacts.SFcompare_antisym x y).
  destruct (SFcompare x y) as [[| |]|]; simpl; congruence.
Qed.

Lemma ltb_nan_l (y : number) : ltb NaN y = false.
Proof. reflexivity. Qed.

Lemma ltb_nan_r (x : number) : ltb x NaN = false.
Proof. destruct x as [s|s| |s m e]; try destruct s; reflexivity. Qed.

Section WithHost.

Variable Math_log10 : number -> number.
Variable parseFloat : string -> number.
Variable toLocaleString_enUS : number -> NumberFormatOptions -> string.
Variable toFixed : number -> number -> string.

Local Abbreviation PriceText :=
  (PriceText Math_log10 parseFloat toLocaleString_enUS).
Local Abbreviation PercentBadge := (PercentBadge parseFloat toFixed).
Local Abbreviation formatPercent := (formatPercent parseFloat toFixed).

(** [PriceText] is green exactly when the price is above [prevValue] and red
    exactly when it is below; without a [prevValue], and whenever either
    number is [NaN], it keeps the primary text colour. *)
Theorem PriceText_color (v : value) (precision prevValue : option number) :
  let num := to_number parseFloat v in
  let shown := PriceText v precision prevValue in
  (prevValue = None -> price_color shown = text_primary) /\
  (isNaN num = true -> price_color shown = text_primary) /\
  (forall prev, prevValue = Some prev ->
     (price_color shown = success <-> ltb prev num = true) /\
     (price_color shown = danger <-> ltb num prev = true) /\
     (isNaN prev = true -> price_color shown = text_primary)).
Proof.
  intros num shown. unfold shown, Widgets.PriceText. cbn [price_color].
  fold num. split; [|split].
  - intros ->. now rewrite ltb_irrefl.
  - intros Hnan. destruct num; try discriminate.
    rewrite ltb_nan_l, ltb_nan_r. now destruct prevValue.
  - intros prev ->. split; [|split].
    + destruct (ltb prev num) eqn:Hup; [tauto|].
      destruct (ltb num prev); split; congruence.
    + destruct (ltb prev num) eqn:Hup.
      * rewrite (ltb_asym _ _ Hup). split; congruence.
      * destruct (ltb num prev); split; congruence.
    + intros Hnan. destruct prev; try discriminate.
      now rewrite ltb_nan_l, ltb_nan_r.
Qed.

(** In a [PercentBadge] the arrow, the colour and the sign that
    [formatPercent] prints agree: all three say "up" exactly for a value
    above zero, arrow and colour say "down" exactly for a value below zero
    (which gets no [+]), and [0], [-0] and [NaN] are shown neutral, [NaN] as
    [0.00%]. *)
Theorem PercentBadge_consistent (v : value) (precision : option number) :
  let num := to_number parseFloat v in
  let badge := PercentBadge v precision in
  (badge_arrow badge = ArrowUp <-> ltb zero num = true) /\
  (badge_color badge = success <-> ltb zero num = true) /\
  (sign num = "+" <-> ltb zero num = true) /\
  (badge_arrow badge = ArrowDown <-> ltb num zero = true) /\
  (badge_color badge = danger <-> ltb num zero = true) /\
  (ltb num zero = true -> sign num = "") /\
  (isNaN num = false ->
     badge_label badge =
       sign num ++
       toFixed num (match precision with Some p => p | None => two end) ++
       "%") /\
  (isNaN num = true ->
     badge_arrow badge = NoArrow /\ badge_color badge = text_secondary /\
     badge_label badge = "0.00%").
Proof.
  intros num badge. unfold badge, Widgets.PercentBadge.
  cbn [badge_arrow badge_color badge_label]. fold num.
  unfold Format.formatPercent, sign. cbn [to_number].
  assert (Hnan : isNaN num = true -> ltb zero num = false /\ ltb num zero = false).
  { intros H. destruct num; try discriminate. split; reflexivity. }
  destruct (ltb zero num) eqn:Hup.
  - rewrite (ltb_asym _ _ Hup).
    destruct (isNaN num) eqn:Hn; [destruct Hnan; [reflexivity|discriminate]|].
    repeat split; intros; congruence.
  - destruct (ltb num zero) eqn:Hdown.
    + destruct (isNaN num) eqn:Hn; [destruct Hnan; [reflexivity|discriminate]|].
      repeat split; intros; congruence.
    + destruct (isNaN num) eqn:Hn; repeat split; intros; congruence.
Qed.

End WithHost.
End WidgetsFacts.

(* ================================================================= *)
(** ** [formatVolume] *)

Module FormatVolumeFacts.
Import JsNumber Format.
Local Open Scope string_scope.

Lemma thousand_eq : thousand = S754_finite false 8796093022208000 (-43).
Proof. vm_compute. reflexivity. Qed.

Lemma million_eq : million = S754_finite false 8589934592000000 (-33).
Proof. vm_compute. reflexivity. Qed.

Lemma billion_eq : billion = S754_finite false 8388608000000000 (-23).
Proof. vm_compute. reflexivity. Qed.

(** Comparing with a positive finite number whose exponent is smaller. *)
Lemma geb_lower_exponent (m1 m2 : positive) (e1 e2 : Z) (x : number) :
  e1 < e2 ->
  geb x (S754_finite false m2 e2) = true ->
  geb x (S754_finite false m1 e1) = true.
Proof.
  intros He. unfold geb, SFleb, SFcompare.
  destruct x as [s|s| |s m e]; try destruct s; try congruence.
  destruct (Z.compare_spec e2 e) as [Heq|Hlt|Hgt]; try congruence.
  - intros _. assert (Hc : Z.compare e1 e = Lt) by (apply Z.compare_lt_iff; lia).
    now rewrite Hc.
  - intros _. assert (Hc : Z.compare e1 e = Lt) by (apply Z.compare_lt_iff; lia).
    now rewrite Hc.
Qed.

Lemma geb_billion_million (x : number) :
  geb x billion = true -> geb x million = true.
Proof.
  rewrite billion_eq, million_eq. apply geb_lower_exponent. lia.
Qed.

Lemma geb_million_thousand (x : number) :
  geb x million = true -> geb x thousand = true.
Proof.
  rewrite million_eq, thousand_eq. apply geb_lower_exponent. lia.
Qed.

(** For a number that is not [NaN], [x >= y] fails exactly when [x < y]. *)
Lemma not_geb_ltb (x y : number) :
  isNaN x = false -> isNaN y = false -> geb x y = false -> ltb x y = true.
Proof.
  unfold ltb, geb, SFltb, SFleb. rewrite (FormatFacts.SFcompare_antisym x y).
  intros Hx Hy.
  destruct (SFcompare x y) as [[| |]|] eqn:Hc; simpl; try congruence.
  destruct x as [a|a| |a m e], y as [b|b| |b n f]; simpl in Hc;
    try discriminate; try (destruct a; discriminate);
    try (destruct b; discriminate); try (destruct a, b; discriminate).
Qed.

Lemma negative_not_geb_thousand (x : number) :
  ltb x zero = true -> geb x thousand = false.
Proof.
  rewrite thousand_eq. unfold ltb, geb, SFltb, SFleb, zero.
  destruct x as [s|s| |s m e]; try destruct s; simpl; congruence.
Qed.

Section WithHost.

Variable parseFloat : string -> number.
Variable toFixed : number -> number -> string.

Local Abbreviation formatVolume := (formatVolume parseFloat toFixed).

(** [formatVolume] picks one unit by the size of the number: [B] from
    [1e9], [M] from [1e6] up to [1e9], [K] from [1e3] up to [1e6], and no
    unit below [1e3]; so a negative volume is never abbreviated, however
    large, and [NaN] is shown as [0]. *)
Theorem formatVolume_units (v : value) :
  let num := to_number parseFloat v in
  (isNaN num = true -> formatVolume v = "0") /\
  (geb num billion = true ->
     formatVolume v = toFixed (div num billion) two ++ "B") /\
  (geb num million = true -> ltb num billion = true ->
     formatVolume v = toFixed (div num million) two ++ "M") /\
  (geb num thousand = true -> ltb num million = true ->
     formatVolume v = toFixed (div num thousand) two ++ "K") /\
  (ltb num thousand = true -> formatVolume v = toFixed num two) /\
  (ltb num zero = true -> formatVolume v = toFixed num two) /\
  (isNaN num = false ->
     geb num billion = true \/
     (geb num million = true /\ ltb num billion = true) \/
     (geb num thousand = true /\ ltb num million = true) \/
     ltb num thousand = true).
Proof.
  intros num. unfold Format.formatVolume. fold num.
  assert (Hgeb : forall y, geb num y = true -> isNaN num = false).
  { intros y. unfold geb, SFleb. destruct num; try reflexivity.
    destruct y as [s|s| |s m e]; try destruct s; simpl; congruence. }
  assert (Hltb : forall y, ltb num y = true -> isNaN num = false).
  { intros y. unfold ltb, SFltb. destruct num; try reflexivity.
    simpl. congruence. }
  assert (Hlow : ltb num thousand = true ->
                 (if isNaN num then "0"
                  else if geb num billion
                  then toFixed (div num billion) two ++ "B"
                  else if geb num million
                  then toFixed (div num million) two ++ "M"
                  else if geb num thousand
                  then toFixed (div num thousand) two ++ "K"
                  else toFixed num two) = toFixed num two).
  { intros Hlt. rewrite (Hltb _ Hlt).
    pose proof (FormatFacts.ltb_not_geb _ _ Hlt) as H3. rewrite H3.
    destruct (geb num million) eqn:H6;
      [apply geb_million_thousand in H6; congruence|].
    destruct (geb num billion) eqn:H9;
      [apply geb_billion_million in H9; congruence|].
    reflexivity. }
  repeat split.
  - intros ->. reflexivity.
  - intros H9. now rewrite (Hgeb _ H9), H9.
  - intros H6 Hlt. rewrite (Hgeb _ H6), (FormatFacts.ltb_not_geb _ _ Hlt), H6.
    reflexivity.
  - intros H3 Hlt. rewrite (Hgeb _ H3).
    pose proof (FormatFacts.ltb_not_geb _ _ Hlt) as H6. rewrite H6.
    destruct (geb num billion) eqn:H9;
      [apply geb_billion_million in H9; congruence|].
    now rewrite H3.
  - exact Hlow.
  - intros Hneg. rewrite (Hltb _ Hneg).
    pose proof (negative_not_geb_thousand _ Hneg) as H3. rewrite H3.
    destruct (geb num million) eqn:H6;
      [apply geb_million_thousand in H6; congruence|].
    destruct (geb num billion) eqn:H9;
      [apply geb_billion_million in H9; congruence|].
    reflexivity.
  - intros Hn.
    destruct (geb num billion) eqn:H9; [now left|right].
    assert (Hlt9 : ltb num billion = true)
      by (apply not_geb_ltb; [exact Hn|now rewrite billion_eq|exact H9]).
    destruct (geb num million) eqn:H6; [left; now split|right].
    assert (Hlt6 : ltb num million = true)
      by (apply not_geb_ltb; [exact Hn|now rewrite million_eq|exact H6]).
    destruct (geb num thousand) eqn:H3; [left; now split|right].
    apply not_geb_ltb; [exact Hn|now rewrite thousand_eq|exact H3].
Qed.

End WithHost.

End FormatVolumeFacts.

(* ================================================================= *)
(** ** The candlestick chart *)

Module KlineChartFacts.
Import JsNumber Format KlineChart.

Lemma one_eq : one = S754_finite false 4503599627370496 (-52).
Proof. vm_compute. reflexivity. Qed.

(** Above [-c], a number is at least [c] exactly when its magnitude is;
    at or below [-c], only its magnitude is. *)
Lemma geb_abs_finite (n : positive) (f : Z) (x : number) :
  let c := S754_finite false n f in
  (geb (neg c) x = false -> geb (Math_abs x) c = geb x c) /\
  (geb (neg c) x = true ->
     geb (Math_abs x) c = true /\ geb x c = false /\
     strict_eq x zero || isNaN x = false).
Proof.
  intros c. unfold c, geb, neg, Math_abs, strict_eq, SFleb, SFeqb.
  destruct x as [s|s| |s m e]; try destruct s;
    cbn [SFopp SFabs SFcompare negb isNaN orb]; split; intros H;
    try discriminate H; try reflexivity; try (repeat split; reflexivity);
    revert H; rewrite (Z.compare_antisym e f);
    change (PosDef.Pos.compare_cont Eq m n) with (Pos.compare m n);
    change (PosDef.Pos.compare_cont Eq n m) with (Pos.compare n m);
    rewrite (Pos.compare_antisym m n);
    destruct (Z.compare e f); cbv [CompOpp];
    try (intros; repeat split; congruence);
    destruct (Pos.compare m n); intros; repeat split; congruence.
Qed.

Section WithHost.

Variable Math_log10 : number -> number.
Variable parseFloat : string -> number.

Local Abbreviation calcPrecision := (calcPrecision Math_log10 parseFloat).
Local Abbreviation getSmartPrecision := (getSmartPrecision Math_log10).

(** The chart's price scale and [formatPrice] use the same number of
    fraction digits: [calcPrecision] of a series is [getSmartPrecision] of
    its last close, for every close above [-1] (every price, zero and an
    unparsable close included), and [2] for an empty series.  At or below
    [-1] the two part: [getSmartPrecision] is [2], [calcPrecision] goes on
    to the logarithm. *)
Theorem calcPrecision_is_getSmartPrecision (klines : list Kline) :
  (klines = [] -> calcPrecision klines = two) /\
  forall k, last_kline klines = Some k ->
    let lastClose := parseFloat (close k) in
    (geb (neg one) lastClose = false ->
       calcPrecision klines = getSmartPrecision lastClose) /\
    (geb (neg one) lastClose = true ->
       getSmartPrecision lastClose = two /\
       calcPrecision klines =
         Math_min
           (add (Math_floor (neg (Math_log10 (Math_abs lastClose)))) two)
           twelve).
Proof.
  split; [now intros ->|].
  intros k Hlast lastClose. unfold KlineChart.calcPrecision.
  rewrite Hlast. fold lastClose. unfold Format.getSmartPrecision.
  rewrite (orb_comm (isNaN lastClose)).
  destruct (geb_abs_finite 4503599627370496 (-52) lastClose)
    as [Habove Hbelow].
  rewrite <- one_eq in Habove, Hbelow. split.
  - intros H.
    destruct (strict_eq lastClose zero || isNaN lastClose); [reflexivity|].
    cbv zeta. now rewrite (Habove H).
  - intros H. destruct (Hbelow H) as (Habs & Hx & Hz).
    rewrite Hz. cbv zeta. rewrite Habs, Hx. split; reflexivity.
Qed.

End WithHost.
End KlineChartFacts.

(* ================================================================= *)
(** ** The symbol list *)

Module SidebarFacts.
Import Stores Sidebar.
Local Open Scope string_scope.

Lemma str_includes_empty (s : string) : str_includes s "" = true.
Proof. destruct s; reflexivity. Qed.

Lemma filter_id {A : Type} (f : A -> bool) (l : list A) :
  (forall x, In x l -> f x = true) -> filter f l = l.
Proof.
  induction l as [|x l IH]; intros H; [reflexivity|].
  simpl. rewrite (H x (or_introl eq_refl)). f_equal.
  apply IH. intros y Hy. apply H. now right.
Qed.

Lemma isFavorite_add (symbol other : string) (symbols : list string) :
  isFavorite other (addFavorite symbol symbols) =
  (String.eqb other symbol || isFavorite other symbols).
Proof.
  unfold isFavorite, addFavorite.
  destruct (includes symbols symbol) eqn:Hin.
  - destruct (String.eqb other symbol) eqn:He; [|reflexivity].
    apply String.eqb_eq in He. subst other. exact Hin.
  - unfold includes. rewrite existsb_app. simpl.
    rewrite orb_false_r. apply orb_comm.
Qed.

Lemma isFavorite_remove (symbol other : string) (symbols : list string) :
  isFavorite other (removeFavorite symbol symbols) =
  (negb (String.eqb other symbol) && isFavorite other symbols).
Proof.
  unfold isFavorite, removeFavorite. apply eq_true_iff_eq.
  rewrite andb_true_iff, negb_true_iff, !StoresFacts.includes_In, filter_In.
  rewrite negb_true_iff. tauto.
Qed.

Section WithHost.

Variable toLowerCase : string -> string.

Local Abbreviation filtered := (filtered toLowerCase).
Local Abbreviation favorite_rows := (favorite_rows toLowerCase).

(** The list of all symbols shows the first [MAX_DISPLAY] symbols that
    contain the search text, ignoring case, in their original order: the
    same matching as the favourites section, an empty search matching
    everything.  It never shows more than 50 rows, nor a symbol that does
    not match, and when at most 50 symbols match it shows every one. *)
Theorem filtered_rows (search : string) (allSymbols : list string) :
  let matching := favorite_rows search allSymbols in
  filtered search allSymbols = firstn MAX_DISPLAY matching /\
  (List.length (filtered search allSymbols) <= MAX_DISPLAY)%nat /\
  (List.length (filtered search allSymbols) <= List.length allSymbols)%nat /\
  (forall s, In s (filtered search allSymbols) ->
     In s allSymbols /\
     str_includes (toLowerCase s) (toLowerCase search) = true) /\
  ((List.length matching <= MAX_DISPLAY)%nat ->
   forall s, In s allSymbols ->
     str_includes (toLowerCase s) (toLowerCase search) = true ->
     In s (filtered search allSymbols)) /\
  (NoDup allSymbols -> NoDup (filtered search allSymbols)).
Proof.
  intros matching.
  assert (Heq : filtered search allSymbols = firstn MAX_DISPLAY matching).
  { unfold Sidebar.filtered, matching, Sidebar.favorite_rows.
    destruct (String.eqb (toLowerCase search) "") eqn:He; [|reflexivity].
    apply String.eqb_eq in He. rewrite He. cbn [negb]. f_equal.
    symmetry. apply filter_id. intros x _. apply str_includes_empty. }
  rewrite Heq. split; [reflexivity|]. split; [apply firstn_le_length|].
  assert (Hsub : forall s, In s (firstn MAX_DISPLAY matching) ->
                           In s matching).
  { intros s. rewrite <- (firstn_skipn MAX_DISPLAY matching) at 2.
    intros H. apply in_or_app. now left. }
  split; [|split; [|split]].
  - rewrite length_firstn. etransitivity; [apply Nat.le_min_r|].
    unfold matching, Sidebar.favorite_rows. apply filter_length_le.
  - intros s Hs. apply Hsub in Hs. unfold matching, Sidebar.favorite_rows in Hs.
    apply filter_In in Hs. exact Hs.
  - intros Hlen s Hin Hm. rewrite firstn_all2 by exact Hlen.
    unfold matching, Sidebar.favorite_rows. apply filter_In. now split.
  - intros Hnd.
    assert (Hm : NoDup matching) by now apply NoDup_filter.
    rewrite <- (firstn_skipn MAX_DISPLAY matching) in Hm.
    now apply NoDup_app_remove_r in Hm.
Qed.

End WithHost.

(** Clicking the star of a row flips whether that symbol is a favourite and
    changes no other symbol; a second click undoes the first.  The star of a
    row in the favourites section removes the symbol.  Neither ever lists a
    symbol twice. *)
Theorem onToggleFav_flips (sym other : string) (favorites : list string) :
  isFavorite other (onToggleFav sym favorites) =
    (if String.eqb other sym then negb (isFavorite sym favorites)
     else isFavorite other favorites) /\
  isFavorite other (onToggleFav sym (onToggleFav sym favorites)) =
    isFavorite other favorites /\
  isFavorite sym (onToggleFav_favorite sym favorites) = false /\
  (NoDup favorites -> NoDup (onToggleFav sym favorites)).
Proof.
  assert (Hflip : forall favs o,
            isFavorite o (onToggleFav sym favs) =
            if String.eqb o sym then negb (isFavorite sym favs)
            else isFavorite o favs).
  { intros favs o. unfold onToggleFav.
    destruct (includes favs sym) eqn:Hin.
    - rewrite isFavorite_remove.
      destruct (String.eqb o sym) eqn:He; [|reflexivity].
      unfold isFavorite. now rewrite Hin.
    - rewrite isFavorite_add.
      destruct (String.eqb o sym) eqn:He; [|reflexivity].
      unfold isFavorite. now rewrite Hin. }
  split; [apply Hflip|]. split; [|split].
  - rewrite Hflip. destruct (String.eqb other sym) eqn:He.
    + rewrite Hflip, String.eqb_refl, negb_involutive.
      apply String.eqb_eq in He. now subst.
    + rewrite Hflip, He. reflexivity.
  - unfold onToggleFav_favorite. rewrite isFavorite_remove.
    now rewrite String.eqb_refl.
  - intros Hnd. unfold onToggleFav. destruct (includes favorites sym).
    + now apply StoresFacts.removeFavorite_NoDup.
    + now apply StoresFacts.addFavorite_NoDup.
Qed.

End SidebarFacts.

(* ================================================================= *)
(** ** Traces of the ticker WebSocket hook *)

Module TickerTraceFacts.
Import TickerWebSocket TickerWebSocketFacts.

Lemma run_cons (s : hook_state) (ev : event) (trace : list event) :
  run s (ev :: trace) = run (handle s ev) trace.
Proof. reflexivity. Qed.

Lemma message_fields (s : hook_state) (symbol : string)
    (price : option JsNumber.number) :
  connected (handle s (Message symbol price)) = connected s /\
  reconnects (handle s (Message symbol price)) = reconnects s.
Proof.
  destruct price as [p|]; simpl; [|now split].
  destruct (String.eqb symbol EmptyString); now split.
Qed.

(** Every close of the socket, whatever came before it, schedules exactly
    one reconnect, between one and thirty seconds later; nothing else
    schedules one, and a scheduled reconnect is never withdrawn. *)
Theorem every_close_schedules_one_reconnect
    (trace : list event) (s : hook_state) :
  exists delays : list Z,
    reconnects (run s trace) = reconnects s ++ delays /\
    List.length delays = closes trace /\
    Forall (fun d => 1000 <= d <= 30000) delays.
Proof.
  revert s. induction trace as [|ev trace IH]; intros s.
  - exists []. split; [symmetry; apply app_nil_r|]. split; [reflexivity|].
    constructor.
  - rewrite run_cons. destruct (IH (handle s ev)) as (ds & Hrun & Hlen & Hall).
    destruct ev.
    + exists ds. split; [exact Hrun|]. split; [exact Hlen|exact Hall].
    + exists ds. split; [|split; [exact Hlen|exact Hall]].
      rewrite Hrun. f_equal. apply message_fields.
    + exists ds. split; [exact Hrun|]. split; [exact Hlen|exact Hall].
    + exists (reconnect_delay (retries s) :: ds). split; [|split].
      * rewrite Hrun, close_schedules, <- app_assoc. reflexivity.
      * unfold closes in *. simpl. now rewrite Hlen.
      * constructor; [apply reconnect_delay_bounds|exact Hall].
Qed.

Lemma connected_keeps_link (trace : list event) :
  forall s : hook_state,
    forallb keeps_link trace = true ->
    connected (run s trace) = connected s.
Proof.
  induction trace as [|ev trace IH]; intros s Hk; [reflexivity|].
  simpl in Hk. apply andb_true_iff in Hk as [Hev Hk].
  rewrite run_cons, (IH _ Hk).
  destruct ev; try discriminate; [apply message_fields|reflexivity].
Qed.

(** The [connected] flag shows how the socket last changed: it is [true]
    exactly when the latest open-or-close event was an open, whatever price
    messages and errors came after it. *)
Theorem connected_follows_last_transition
    (s : hook_state) (pre post : list event) (ev : event) :
  is_open ev || is_close ev = true ->
  forallb keeps_link post = true ->
  connected (run s (pre ++ ev :: post)) = is_open ev.
Proof.
  intros Hev Hpost. rewrite run_app, run_cons.
  rewrite (connected_keeps_link _ _ Hpost).
  destruct ev; try discriminate; reflexivity.
Qed.

Lemma connected_follows_last_transition_witness :
  connected
    (run initial
       ([Close; Open] ++
        Close :: [Message "BTC/USDT" (Some JsNumber.one); Error])) = false.
Proof.
  apply (connected_follows_last_transition initial [Close; Open]
           [Message "BTC/USDT" (Some JsNumber.one); Error] Close);
    reflexivity.
Defined.

Lemma price_of_update (symbol other : string) (price : JsNumber.number)
    (ps : list (string * JsNumber.number)) :
  price_of other (updatePrice symbol price ps) =
  if String.eqb other symbol then Some price else price_of other ps.
Proof.
  unfold updatePrice. cbn [price_of]. rewrite (String.eqb_sym symbol other).
  destruct (String.eqb other symbol) eqn:Hne; [reflexivity|].
  now apply price_of_filter.
Qed.

Lemma price_kept (symbol : string) (trace : list event) :
  forall s : hook_state,
    forallb (fun ev => negb (prices_symbol symbol ev)) trace = true ->
    price_of symbol (prices (run s trace)) = price_of symbol (prices s).
Proof.
  induction trace as [|ev trace IH]; intros s Hk; [reflexivity|].
  simpl in Hk. apply andb_true_iff in Hk as [Hev Hk].
  rewrite run_cons, (IH _ Hk).
  destruct ev as [|sym [p|]| |]; try reflexivity.
  simpl in Hev. simpl. destruct (String.eqb sym EmptyString); [reflexivity|].
  cbn [prices]. rewrite price_of_update, (String.eqb_sym symbol sym).
  apply negb_true_iff in Hev. now rewrite Hev.
Qed.

Lemma price_never_lost (symbol : string) (trace : list event) :
  forall s : hook_state,
    price_of symbol (prices s) <> None ->
    price_of symbol (prices (run s trace)) <> None.
Proof.
  induction trace as [|ev trace IH]; intros s Hs; [exact Hs|].
  rewrite run_cons. apply IH.
  destruct ev as [|sym [p|]| |]; try exact Hs.
  simpl. destruct (String.eqb sym EmptyString); [exact Hs|].
  cbn [prices]. rewrite price_of_update.
  destruct (String.eqb symbol sym); [discriminate|exact Hs].
Qed.

(** The store holds for each symbol the price of the latest message that
    carried one: later messages for other symbols, messages without a
    price, errors, closes and reopenings leave it in place, and a symbol
    that has a price never loses it. *)
Theorem latest_price_is_kept
    (s : hook_state) (pre post : list event) (symbol : string)
    (price : JsNumber.number) :
  symbol <> EmptyString ->
  forallb (fun ev => negb (prices_symbol symbol ev)) post = true ->
  price_of symbol
    (prices (run s (pre ++ Message symbol (Some price) :: post)))
  = Some price /\
  forall more : list event,
    price_of symbol
      (prices (run s (pre ++ Message symbol (Some price) :: post ++ more)))
    <> None.
Proof.
  intros Hsym Hpost.
  assert (Hnow : price_of symbol
            (prices (run s (pre ++ Message symbol (Some price) :: post)))
          = Some price).
  { rewrite run_app, run_cons, (price_kept _ _ _ Hpost). simpl.
    apply String.eqb_neq in Hsym. rewrite Hsym. cbn [prices].
    now rewrite price_of_update, String.eqb_refl. }
  split; [exact Hnow|]. intros more.
  change (pre ++ Message symbol (Some price) :: post ++ more)
    with (pre ++ (Message symbol (Some price) :: post) ++ more).
  rewrite app_assoc, run_app. apply price_never_lost.
  rewrite Hnow. discriminate.
Qed.

Lemma latest_price_is_kept_witness :
  price_of "BTC/USDT"
    (prices
       (run initial
          ([Open; Message "BTC/USDT" (Some JsNumber.one)] ++
           Message "BTC/USDT" (Some JsNumber.two) ::
           [Message "ETH/USDT" (Some JsNumber.one);
            Message "BTC/USDT" None; Close; Open])))
  = Some JsNumber.two.
Proof.
  apply (latest_price_is_kept initial
           [Open; Message "BTC/USDT" (Some JsNumber.one)]
           [Message "ETH/USDT" (Some JsNumber.one);
            Message "BTC/USDT" None; Close; Open]
           "BTC/USDT" JsNumber.two);
    [discriminate|reflexivity].
Defined.

End TickerTraceFacts.

(* ================================================================= *)
(** ** The route guard *)

Module RoutingFacts.
Import Stores Routing.
Local Open Scope string_scope.

Lemma authenticated_has_token (actions : list auth_action) :
  forall s0 : AuthState,
    isAuthenticated s0 = is_some (token s0) ->
    isAuthenticated (fold_left auth_step actions s0) =
    is_some (token (fold_left auth_step actions s0)).
Proof.
  induction actions as [|a actions IH]; intros s0 H0; [exact H0|].
  simpl. apply IH. destruct a; simpl; [reflexivity|reflexivity|exact H0].
Qed.

(** The guard shows the protected pages only to a session that holds a
    token and has no password change pending, whatever was done to the
    store before.  Where [Login] navigates after a successful login is
    where the guard lets the session be: the dashboard when no password
    change is due, the change-password page otherwise; after a password
    change, and after any [logout], the guard sends to the login page. *)
Theorem AuthGuard_admits_sessions_only
    (actions : list auth_action) (res : LoginResponse)
    (new_password : string) :
  let s := fold_left auth_step actions initial_auth in
  (AuthGuard s = AppShell ->
     is_some (token s) = true /\ mustChangePassword s = false) /\
  AuthGuard initial_auth = Navigate "/login" /\
  AuthGuard (logout s) = Navigate "/login" /\
  (AuthGuard (fst (Login_onFinish res s)) = AppShell <->
     snd (Login_onFinish res s) = "/dashboard") /\
  (AuthGuard (fst (Login_onFinish res s)) = Navigate "/change-password" <->
     snd (Login_onFinish res s) = "/change-password") /\
  (exists s', ChangePassword_onFinish new_password new_password s
                = Some (s', "/login") /\
              AuthGuard s' = Navigate "/login").
Proof.
  intros s.
  pose proof (authenticated_has_token actions initial_auth eq_refl) as Hinv.
  fold s in Hinv. split; [|split; [|split; [|split; [|split]]]].
  - unfold AuthGuard. rewrite Hinv.
    destruct (is_some (token s)); [|discriminate].
    destruct (mustChangePassword s); [discriminate|]. now split.
  - reflexivity.
  - reflexivity.
  - unfold Login_onFinish, AuthGuard. cbn.
    destruct (must_change_password res); split; congruence.
  - unfold Login_onFinish, AuthGuard. cbn.
    destruct (must_change_password res); split; congruence.
  - exists (logout s). unfold ChangePassword_onFinish.
    rewrite String.eqb_refl. split; reflexivity.
Qed.

End RoutingFacts.

(* ================================================================= *)
(** ** The HTTP client *)

Module ClientFacts.
Import JsNumber TypeScript Client.
Local Open Scope string_scope.

Lemma getItem_setItem (key value : string) (items : list (string * string)) :
  getItem key (setItem key value items) = Some value.
Proof.
  induction items as [|[k v] items IH]; simpl.
  - now rewrite String.eqb_refl.
  - destruct (String.eqb k key) eqn:He; simpl; now rewrite He.
Qed.

Lemma getItem_removeItem (key : string) (items : list (string * string)) :
  getItem key (removeItem key items) = None.
Proof.
  induction items as [|[k v] items IH]; [reflexivity|].
  unfold removeItem in *. simpl.
  destruct (String.eqb k key) eqn:He; simpl; [exact IH|].
  now rewrite He.
Qed.

Lemma lookup_set_member (key other : string) (value : json)
    (members : list (string * json)) :
  lookup other (set_member key value members) =
  if String.eqb key other then Some value else lookup other members.
Proof.
  induction members as [|[k v] members IH]; simpl.
  - reflexivity.
  - destruct (String.eqb k key) eqn:He; simpl.
    + apply String.eqb_eq in He. subst k.
      now destruct (String.eqb key other).
    + destruct (String.eqb k other) eqn:Ho; [|exact IH].
      destruct (String.eqb key other) eqn:Hko; [|reflexivity].
      apply String.eqb_eq in Ho, Hko. subst.
      now rewrite String.eqb_refl in He.
Qed.

Lemma signed_out_token (state : option json) :
  get "token" (signed_out state) = Some JNull.
Proof.
  unfold signed_out. cbn [get]. now rewrite !lookup_set_member.
Qed.

Lemma prefix_redirect (path : string) :
  prefix "/login" (redirect_to_login path) = true.
Proof.
  unfold redirect_to_login.
  destruct (prefix "/login" path) eqn:Hp; [exact Hp|reflexivity].
Qed.

Section WithHost.

Variable JSON_parse : string -> option json.
Variable JSON_stringify : json -> string.
Variable ToString : json -> string.

Local Abbreviation clear_auth_store :=
  (clear_auth_store JSON_parse JSON_stringify).
Local Abbreviation on_rejected := (on_rejected JSON_parse JSON_stringify).
Local Abbreviation authorization := (authorization JSON_parse ToString).
Local Abbreviation on_request := (on_request JSON_parse ToString).

Lemma authorization_stored (w : browser) (raw : string) (parsed : json) :
  getItem "auth-store" (localStorage w) = Some raw ->
  JSON_parse raw = Some parsed ->
  truthy_opt (stored_token parsed) = false ->
  authorization w = None.
Proof.
  intros Hraw Hparse Hfalsy. unfold Client.authorization.
  rewrite Hraw. destruct (String.eqb raw ""); [reflexivity|].
  rewrite Hparse. unfold stored_token in Hfalsy.
  destruct parsed; try reflexivity.
  destruct (get "state" (JObject members)) as [state|]; [|reflexivity].
  destruct (get "token" state) as [token|]; [|reflexivity].
  simpl in Hfalsy. now rewrite Hfalsy.
Qed.

Lemma authorization_written (items : list (string * string)) (path : string)
    (v : json) :
  keeps_falsy_token JSON_parse JSON_stringify ->
  truthy_opt (stored_token v) = false ->
  authorization
    {| localStorage := setItem "auth-store" (JSON_stringify v) items;
       pathname := path |} = None.
Proof.
  intros Hhost Hfalsy.
  destruct (JSON_parse (JSON_stringify v)) as [v'|] eqn:Hparse.
  - apply (authorization_stored _ (JSON_stringify v) v').
    + apply getItem_setItem.
    + exact Hparse.
    + apply (Hhost v v' Hparse Hfalsy).
  - unfold Client.authorization. cbn [localStorage].
    rewrite getItem_setItem, Hparse.
    now destruct (String.eqb (JSON_stringify v) "").
Qed.

Lemma authorization_removed (items : list (string * string)) (path : string) :
  authorization
    {| localStorage := removeItem "auth-store" items; pathname := path |}
  = None.
Proof.
  unfold Client.authorization. cbn [localStorage].
  now rewrite getItem_removeItem.
Qed.

(** After a 401 answer the next request carries no [Authorization] header,
    whatever [localStorage] held, and the browser is on a login path (where
    it stays if it was there already); an answer with any other status, and
    an error without an answer, leave [localStorage] and the location as
    they were. *)
Theorem unauthorized_ends_the_session (w : browser) (err : failure) :
  keeps_falsy_token JSON_parse JSON_stringify ->
  let w' := fst (on_rejected w err) in
  (forall r, err = HttpError r -> status r = 401 ->
     authorization w' = None /\
     (forall h, on_request w' h = h) /\
     prefix "/login" (pathname w') = true /\
     (prefix "/login" (pathname w) = true -> pathname w' = pathname w)) /\
  (forall r, err = HttpError r -> status r <> 401 -> w' = w) /\
  (forall reason, err = NoResponse reason -> w' = w).
Proof.
  intros Hhost w'. split; [|split].
  - intros r -> Hst. unfold w', Client.on_rejected. cbn [fst].
    rewrite Hst. cbn [Z.eqb Pos.eqb].
    assert (Hauth : authorization
              {| localStorage := clear_auth_store (localStorage w);
                 pathname := redirect_to_login (pathname w) |} = None).
    { unfold Client.clear_auth_store.
      destruct (getItem "auth-store" (localStorage w)) as [raw|] eqn:Hraw.
      - destruct (String.eqb raw "") eqn:Hempty.
        + unfold Client.authorization. cbn [localStorage].
          now rewrite Hraw, Hempty.
        + destruct (JSON_parse raw) as [parsed|] eqn:Hparse;
            [|apply authorization_removed].
          destruct parsed; try apply authorization_removed.
          * apply authorization_written; [exact Hhost|reflexivity].
          * apply authorization_written; [exact Hhost|].
            unfold stored_token. cbn [get].
            rewrite lookup_set_member, String.eqb_refl.
            now rewrite signed_out_token.
      - unfold Client.authorization. cbn [localStorage]. now rewrite Hraw. }
    split; [exact Hauth|]. split; [|split].
    + intros h. unfold Client.on_request. now rewrite Hauth.
    + apply prefix_redirect.
    + cbn [pathname]. unfold redirect_to_login. now intros ->.
  - intros r -> Hst. unfold w', Client.on_rejected. cbn [fst].
    apply Z.eqb_neq in Hst. now rewrite Hst.
  - intros reason ->. reflexivity.
Qed.

(** While the persisted auth store holds the state [s], every request
    carries [Bearer <token>] exactly when [s] has a non-empty token; and a
    401 answer rewrites the persisted state to what [logout()] leaves,
    keeping the other members of the stored object. *)
Theorem persisted_session (w : browser) (raw : string)
    (s : Stores.AuthState) (rest : list (string * json)) :
  getItem "auth-store" (localStorage w) = Some raw ->
  raw <> "" ->
  JSON_parse raw = Some (JObject (("state", JObject (auth_members s)) :: rest)) ->
  authorization w =
    match Stores.token s with
    | Some t => if String.eqb t "" then None else Some ("Bearer " ++ t)
    | None => None
    end /\
  clear_auth_store (localStorage w) =
    setItem "auth-store"
      (JSON_stringify
         (JObject (("state", JObject (auth_members (Stores.logout s))) :: rest)))
      (localStorage w).
Proof.
  intros Hraw Hne Hparse. apply String.eqb_neq in Hne. split.
  - unfold Client.authorization. rewrite Hraw, Hne, Hparse.
    destruct s as [[t|] u m a]; [|reflexivity].
    cbn. now destruct (String.eqb t "").
  - unfold Client.clear_auth_store. rewrite Hraw, Hne, Hparse.
    reflexivity.
Qed.

End WithHost.

Lemma sample_keeps_falsy_token :
  keeps_falsy_token sample_parse sample_stringify.
Proof.
  intros v v' Hparse Hfalsy. unfold sample_stringify in Hparse.
  rewrite Hfalsy in Hparse. injection Hparse as <-. reflexivity.
Qed.

(** The sample store holds a session; after a 401 answer the header is
    gone. *)
Lemma unauthorized_ends_the_session_witness :
  authorization sample_parse sample_ToString sample_browser
    = Some "Bearer abc" /\
  authorization sample_parse sample_ToString
    (fst (on_rejected sample_parse sample_stringify sample_browser
            (HttpError sample_401)))
    = None.
Proof.
  split; [reflexivity|].
  exact (proj1
           (proj1
              (unauthorized_ends_the_session
                 sample_parse sample_stringify sample_ToString
                 sample_browser (HttpError sample_401)
                 sample_keeps_falsy_token)
              sample_401 eq_refl eq_refl)).
Defined.

Lemma persisted_session_witness :
  authorization sample_parse sample_ToString sample_browser
    = Some "Bearer abc" /\
  clear_auth_store sample_parse sample_stringify
    (localStorage sample_browser)
    = [("auth-store", "signed out")].
Proof.
  refine (persisted_session sample_parse sample_stringify sample_ToString
            sample_browser "session"
            (Stores.login "abc" "admin" false Stores.initial_auth)
            [("version", JNumber zero)] eq_refl _ eq_refl).
  discriminate.
Defined.


End ClientFacts.
